(** * go-libapns: the APNS connection of [connection.go]

    A shallow embedding of [connection.go]: the error listener, the send
    loop with its replay buffer, the item encoder, the frame buffer and its
    flush, and the id counter.

    Conventions.
    - Go's fixed-width unsigned integers are [Z] with the wrap-around
      written out ([uint8], [uint16], [uint32]); a byte is a [Z] in
      [0, 256), a [[]byte] a [list Z].
    - [*Payload] is an address into a heap of payloads ([gmap loc Payload]):
      the send loop, the replay buffer and the close report all hold the
      same pointer, and [bufferPayload] writes through it.
    - [container/list] values are Rocq lists, front element first.
    - A Go panic (index out of range) is [None]; so is the use of an address
      that is not on the heap, which Go rules out.
    - The two goroutines meet on [errCloseChannel]; the [select] of
      [sendListener] is resolved by an explicit list of events.  The timer is
      the event [Timeout]; its durations play no part.
    - The byte buffer of a connection is never nil once the constructor has
      run, so the nil test of [flushBufferToSocket] is left out. *)

From Stdlib Require Import ZArith Lia Ascii.
From stdpp Require Import base option list gmap strings.

Local Open Scope Z_scope.

(** ** Fixed-width integers and [encoding/binary] *)

Definition uint8 (z : Z) : Z := z mod 2 ^ 8.
Definition uint16 (z : Z) : Z := z mod 2 ^ 16.
Definition uint32 (z : Z) : Z := z mod 2 ^ 32.

(** [len(b)] as a Go [int]. *)
Definition len {A} (l : list A) : Z := Z.of_nat (length l).

(** [binary.Write(w, binary.BigEndian, v)] for a [uint16] and a [uint32],
    and [binary.BigEndian.PutUint32]. *)
Definition putUint16 (v : Z) : list Z :=
  [uint8 (Z.shiftr v 8); uint8 v].

Definition putUint32 (v : Z) : list Z :=
  [uint8 (Z.shiftr v 24); uint8 (Z.shiftr v 16); uint8 (Z.shiftr v 8); uint8 v].

(** [binary.BigEndian.Uint32(b)]: panics when [b] has fewer than 4 bytes. *)
Definition Uint32 (b : list Z) : option Z :=
  match b with
  | b0 :: b1 :: b2 :: b3 :: _ =>
      Some (Z.lor (Z.lor (Z.lor (Z.shiftl b0 24) (Z.shiftl b1 16))
                         (Z.shiftl b2 8)) b3)
  | _ => None
  end.

(** [s[i] = x] on a slice: panics when [i] is out of range. *)
Definition setIndex (s : list Z) (i : nat) (x : Z) : option (list Z) :=
  if decide (i < length s)%nat then Some (<[i := x]> s) else None.

(** ** [encoding/hex] *)

(** [fromHexChar]: the value of one hex digit, either case. *)
Definition fromHexChar (c : ascii) : option Z :=
  let n := Z.of_N (Ascii.N_of_ascii c) in
  if (48 <=? n) && (n <=? 57) then Some (n - 48)
  else if (97 <=? n) && (n <=? 102) then Some (n - 97 + 10)
  else if (65 <=? n) && (n <=? 70) then Some (n - 65 + 10)
  else None.

(** [hex.DecodeString]: [None] stands for a non-nil error (odd length or a
    character that is no hex digit). *)
Fixpoint DecodeString (s : string) : option (list Z) :=
  match s with
  | EmptyString => Some []
  | String _ EmptyString => None
  | String p (String q rest) =>
      a ← fromHexChar p;
      b ← fromHexChar q;
      bs ← DecodeString rest;
      Some (Z.lor (Z.shiftl a 4) b :: bs)
  end.

(** ** The transport ([net.Conn]) *)

(** The connection only calls [Read] once, [Write] and [Close].  The
    transport records every buffer handed to [Write], in order; whether a
    [Write] returns an error is decided by the environment
    ([conn_writeErrs], one entry per future call, no entry: no error). *)
Record NetConn := mkNetConn {
  conn_written : list (list Z);
  conn_writeErrs : list bool;
  conn_closed : bool
}.

Definition conn_Write (s : NetConn) (b : list Z) : NetConn * bool :=
  match conn_writeErrs s with
  | [] => (mkNetConn (conn_written s ++ [b]) [] (conn_closed s), false)
  | e :: es => (mkNetConn (conn_written s ++ [b]) es (conn_closed s), e)
  end.

Definition conn_Close (s : NetConn) : NetConn :=
  mkNetConn (conn_written s) (conn_writeErrs s) true.

(** What the single [socket.Read(buffer)] of [closeListener] meets: the
    bytes that arrive, and the error it returns if any. *)
Record ReadResult := mkReadResult {
  read_data : list Z;
  read_err : option string
}.

(** [Read] fills the front of [buffer] with at most [len(buffer)] bytes. *)
Definition conn_Read (r : ReadResult) (buffer : list Z) : list Z * option string :=
  (take (length buffer) (read_data r) ++ drop (length (read_data r)) buffer,
   read_err r).

(** ** Data *)

Record AppleError := mkAppleError {
  MessageId : Z;
  ErrorCode : Z;
  ErrorString : string
}.

(** A [*Payload]. *)
Abbreviation loc := positive.

(** Modelled from the spec: the [Payload] struct is declared in another file
    of the package.  It holds the device token as a hex string, the
    expiration epoch (4 bytes on the wire), the priority (1 byte on the
    wire) and the alert fields, kept abstract as [PayloadData]. *)
Record Payload {D : Type} := mkPayload {
  Token : string;
  ExpirationTime : Z;
  Priority : Z;
  PayloadData : D
}.
Arguments Payload : clear implicits.
Arguments mkPayload {D} _ _ _ _.

(** Modelled from the spec: the method [marshalAlertBodyPayload(maxSize)]
    of [Payload], declared with it; it returns the marshalled alert bytes or fails
    ([None]). *)
Class Marshaller (D : Type) :=
  marshalAlertBodyPayload : Payload D → Z → option (list Z).

Record ConnectionClose := mkConnectionClose {
  UnsentPayloads : list loc;
  Error : AppleError;
  ErrorPayload : option loc;
  UnsentPayloadBufferOverflow : bool
}.

Record idPayload := mkIdPayload {
  ip_Payload : loc;
  ip_Id : Z
}.

(** The channels and the mutex of the Go struct carry no data of their own
    and are left out. [inFlightPayloadBuffer] has its front element first,
    so the oldest payload is last. *)
Record APNSConnection := mkAPNSConnection {
  socket : NetConn;
  inFlightPayloadBuffer : list idPayload;
  inFlightPayloadBufferSize : Z;
  inFlightByteBuffer : list Z;
  inFlightId : Z;
  payloadIdCounter : Z
}.

Definition TCP_FRAME_MAX : Z := 65535.

Definition APPLE_PUSH_RESPONSES : gmap Z string :=
  list_to_map
    [ (0, "NO_ERRORS"); (1, "PROCESSING_ERROR"); (2, "MISSING_DEVICE_TOKEN");
      (3, "MISSING_TOPIC"); (4, "MISSING_PAYLOAD"); (5, "INVALID_TOKEN_SIZE");
      (6, "INVALID_TOPIC_SIZE"); (7, "INVALID_PAYLOAD_SIZE");
      (8, "INVALID_TOKEN"); (10, "SHUTDOWN"); (255, "UNKNOWN") ].

(** Indexing a Go map: the zero value (the empty string) for a missing key. *)
Definition mapIndex (m : gmap Z string) (k : Z) : string :=
  default EmptyString (m !! k).

(** ** Construction *)

Definition socketAPNSConnectionBufSize (socket : NetConn) (bufferSize : Z)
  : APNSConnection :=
  {| socket := socket;
     inFlightPayloadBuffer := [];
     inFlightPayloadBufferSize := bufferSize;
     inFlightByteBuffer := [];
     inFlightId := 0;
     payloadIdCounter := 0 |}.

Definition socketAPNSConnection (socket : NetConn) : APNSConnection :=
  socketAPNSConnectionBufSize socket 10000.

Definition NewAPNSConnection (socket : NetConn) : APNSConnection :=
  socketAPNSConnection socket.

(** Field updates of the connection struct. *)
Definition set_socket (s : NetConn) (c : APNSConnection) : APNSConnection :=
  mkAPNSConnection s (inFlightPayloadBuffer c) (inFlightPayloadBufferSize c)
    (inFlightByteBuffer c) (inFlightId c) (payloadIdCounter c).

Definition set_inFlightPayloadBuffer (l : list idPayload) (c : APNSConnection)
  : APNSConnection :=
  mkAPNSConnection (socket c) l (inFlightPayloadBufferSize c)
    (inFlightByteBuffer c) (inFlightId c) (payloadIdCounter c).

Definition set_inFlightByteBuffer (b : list Z) (c : APNSConnection)
  : APNSConnection :=
  mkAPNSConnection (socket c) (inFlightPayloadBuffer c)
    (inFlightPayloadBufferSize c) b (inFlightId c) (payloadIdCounter c).

Definition set_inFlightId (i : Z) (c : APNSConnection) : APNSConnection :=
  mkAPNSConnection (socket c) (inFlightPayloadBuffer c)
    (inFlightPayloadBufferSize c) (inFlightByteBuffer c) i (payloadIdCounter c).

Definition set_payloadIdCounter (n : Z) (c : APNSConnection) : APNSConnection :=
  mkAPNSConnection (socket c) (inFlightPayloadBuffer c)
    (inFlightPayloadBufferSize c) (inFlightByteBuffer c) (inFlightId c) n.

(** ** Disconnecting and flushing *)

Definition noFlushDisconnect (c : APNSConnection) : APNSConnection :=
  set_socket (conn_Close (socket c)) c.

(** [flushBufferToSocket].  [bufBytes] aliases the byte buffer, so the four
    patched bytes stay in it.  The deferred [noFlushDisconnect] runs when the
    function returns. *)
Definition flushBufferToSocket (c : APNSConnection) : option APNSConnection :=
  if (len (inFlightByteBuffer c) =? 0) || (len (inFlightByteBuffer c) =? 5)
  then Some c
  else
    let bufBytes := inFlightByteBuffer c in
    let frameLength := len bufBytes - 5 in
    let frameLengthBytes := putUint32 (uint32 frameLength) in
    bufBytes ← setIndex bufBytes 1 (frameLengthBytes !!! 0%nat);
    bufBytes ← setIndex bufBytes 2 (frameLengthBytes !!! 1%nat);
    bufBytes ← setIndex bufBytes 3 (frameLengthBytes !!! 2%nat);
    bufBytes ← setIndex bufBytes 4 (frameLengthBytes !!! 3%nat);
    let c := set_inFlightByteBuffer bufBytes c in
    let '(s, writeErr) := conn_Write (socket c) bufBytes in
    let c := set_socket s c in
    if writeErr then Some (noFlushDisconnect c) else Some c.

Definition Disconnect (c : APNSConnection) : option APNSConnection :=
  c ← flushBufferToSocket c;
  Some (noFlushDisconnect c).

(** ** The error listener *)

(** [closeListener]: the value it sends on [errCloseChannel]. *)
Definition closeListener (r : ReadResult) : option AppleError :=
  let buffer := replicate 6 0 in
  let '(buffer, err) := conn_Read r buffer in
  match err with
  | Some msg =>
      Some {| ErrorCode := 10; ErrorString := msg; MessageId := 0 |}
  | None =>
      messageId ← Uint32 (drop 2 buffer);
      Some {| ErrorString := mapIndex APPLE_PUSH_RESPONSES (uint8 (buffer !!! 1%nat));
              ErrorCode := uint8 (buffer !!! 1%nat);
              MessageId := messageId |}
  end.

(** ** The id counter *)

Definition nextPayloadId (c : APNSConnection) : Z * APNSConnection :=
  let c := set_payloadIdCounter (uint32 (payloadIdCounter c + 1)) c in
  let c := if payloadIdCounter c =? 0 then set_payloadIdCounter 1 c else c in
  (payloadIdCounter c, c).

(** ** Encoding and buffering *)

Section Connection.
Context {D : Type} {marshaller : Marshaller D}.

Definition set_Priority (v : Z) (p : Payload D) : Payload D :=
  mkPayload (Token p) (ExpirationTime p) v (PayloadData p).

(** The first half of [bufferPayload], up to the last write into
    [itemBuffer]: the payload as [idPayloadObj.Payload.Priority = 5] leaves
    it, and the item bytes with the placeholder local id.  [None]: the token
    does not decode or the payload does not marshal. *)
Definition itemBuffer (p : Payload D) (Id : Z) : option (Payload D * list Z) :=
  token ← DecodeString (Token p);
  payloadBytes ← marshalAlertBodyPayload p 256;
  let dataLength := 32 + len payloadBytes + 4 + 4 + 1 in
  let p' := if negb (Priority p =? 10) && negb (Priority p =? 5)
            then set_Priority 5 p else p in
  Some (p',
        [uint8 0] ++ putUint16 (uint16 dataLength) ++ token ++ payloadBytes
          ++ putUint32 Id ++ putUint32 (ExpirationTime p) ++ [Priority p']).

(** [bufferPayload]: encode, store the payload back through the pointer,
    then append under the lock.  [itemBytes[0]] is always in range, the item
    starts with the placeholder byte. *)
Definition bufferPayload (h : gmap loc (Payload D)) (c : APNSConnection)
    (idPayloadObj : idPayload) : option (gmap loc (Payload D) * APNSConnection) :=
  p ← h !! ip_Payload idPayloadObj;
  match itemBuffer p (ip_Id idPayloadObj) with
  | None => c ← Disconnect c; Some (h, c)
  | Some (p', itemBuffer) =>
      let h := <[ip_Payload idPayloadObj := p']> h in
      c ← (if (len (inFlightByteBuffer c) + len itemBuffer >? TCP_FRAME_MAX)
              || (len (inFlightByteBuffer c) =? 0)
           then
             c ← (if len (inFlightByteBuffer c) + len itemBuffer >? TCP_FRAME_MAX
                  then c ← flushBufferToSocket c;
                       Some (set_inFlightByteBuffer [] c)
                  else Some c);
             let c := set_inFlightByteBuffer
                        (inFlightByteBuffer c ++ [uint8 2] ++ putUint32 0) c in
             Some (set_inFlightId 0 c)
           else Some (set_inFlightId (uint8 (inFlightId c + 1)) c));
      let itemBytes := <[0%nat := inFlightId c]> itemBuffer in
      Some (h, set_inFlightByteBuffer (inFlightByteBuffer c ++ itemBytes) c)
  end.

(** ** The send loop *)

(** What one round of the [select] receives. *)
Inductive Event :=
  | Submit (sendPayload : option loc)
  | Timeout
  | ErrClose (appleError : AppleError).

(** Where [sendListener] stands when the events run out: still in the
    [select], returned because [SendChannel] was closed, or it has sent its
    [ConnectionClose]. *)
Inductive Outcome :=
  | Listening (h : gmap loc (Payload D)) (c : APNSConnection)
  | Returned (h : gmap loc (Payload D)) (c : APNSConnection)
  | Closed (h : gmap loc (Payload D)) (c : APNSConnection) (r : ConnectionClose).

(** The loop that gathers the unsent payloads, from [e] on. *)
Fixpoint gatherUnsent (appleError : AppleError) (e : list idPayload)
    (unsentPayloads : list loc) : list loc * option loc :=
  match e with
  | [] => (unsentPayloads, None)
  | idPayloadObj :: next =>
      if negb (MessageId appleError =? 0)
         && (ip_Id idPayloadObj =? MessageId appleError)
      then (unsentPayloads, Some (ip_Payload idPayloadObj))
      else gatherUnsent appleError next (ip_Payload idPayloadObj :: unsentPayloads)
  end.

Definition connectionClose (c : APNSConnection) (appleError : AppleError)
  : ConnectionClose :=
  let '(unsentPayloads, errorPayload) :=
    gatherUnsent appleError (inFlightPayloadBuffer c) [] in
  {| Error := appleError;
     UnsentPayloads := unsentPayloads;
     ErrorPayload := errorPayload;
     UnsentPayloadBufferOverflow :=
       (len unsentPayloads >? 0) && bool_decide (errorPayload = None) |}.

(** The [SendChannel] case of the [select]. *)
Definition submit (h : gmap loc (Payload D)) (c : APNSConnection)
    (sendPayload : loc) : option (gmap loc (Payload D) * APNSConnection) :=
  let '(id, c) := nextPayloadId c in
  let idPayloadObj := {| ip_Payload := sendPayload; ip_Id := id |} in
  let c := set_inFlightPayloadBuffer (idPayloadObj :: inFlightPayloadBuffer c) c in
  let c := if len (inFlightPayloadBuffer c) >? inFlightPayloadBufferSize c
           then set_inFlightPayloadBuffer (removelast (inFlightPayloadBuffer c)) c
           else c in
  bufferPayload h c idPayloadObj.

Fixpoint sendListener (h : gmap loc (Payload D)) (c : APNSConnection)
    (events : list Event) : option Outcome :=
  match events with
  | [] => Some (Listening h c)
  | Submit None :: _ => Some (Returned h c)
  | Submit (Some sendPayload) :: events =>
      '(h, c) ← submit h c sendPayload;
      sendListener h c events
  | Timeout :: events =>
      c ← flushBufferToSocket c;
      sendListener h c events
  | ErrClose appleError :: _ =>
      Some (Closed h c (connectionClose c appleError))
  end.

End Connection.

(** ** Observations on runs *)

Section Observations.
Context {D : Type}.

Definition outcome_conn (o : @Outcome D) : APNSConnection :=
  match o with
  | Listening _ c | Returned _ c | Closed _ c _ => c
  end.

Definition outcome_heap (o : @Outcome D) : gmap loc (Payload D) :=
  match o with
  | Listening h _ | Returned h _ | Closed h _ _ => h
  end.

(** The buffers handed to [socket.Write] so far, oldest first. *)
Definition framesWritten (o : option (@Outcome D)) : list (list Z) :=
  match o with
  | Some o => conn_written (socket (outcome_conn o))
  | None => []
  end.

(** The close report of a run that has sent one. *)
Definition closeReport (o : option (@Outcome D)) : option ConnectionClose :=
  match o with
  | Some (Closed _ _ r) => Some r
  | _ => None
  end.

End Observations.

(** The byte buffer is empty or holds at least a header: what every
    operation of the connection leaves behind. *)
Definition bufferOK (c : APNSConnection) : Prop :=
  len (inFlightByteBuffer c) = 0 ∨ 5 <= len (inFlightByteBuffer c).

(** Events that keep the loop going: a payload or the timer. *)
Definition traffic (ev : Event) : bool :=
  match ev with
  | Submit (Some _) | Timeout => true
  | _ => false
  end.

(** The payloads handed to [SendChannel], in submission order. *)
Definition submitted (events : list Event) : list loc :=
  omap (λ ev, match ev with Submit p => p | _ => None end) events.

(** Whether the next [socket.Write] returns an error. *)
Definition nextWriteFails (s : NetConn) : bool :=
  match conn_writeErrs s with
  | [] => false
  | e :: _ => e
  end.

(** The id counter after [n] calls of [nextPayloadId] on a fresh connection:
    the id of the [n]-th submission, for [n >= 1]. *)
Definition payloadIdOf (n : N) : Z :=
  payloadIdCounter
    (N.iter n (λ c, (nextPayloadId c).2)
       (NewAPNSConnection (mkNetConn [] [] false))).

(** The replay buffer entry of the [j]-th submission (from 0) of a fresh
    connection. *)
Definition replayEntry (j : nat) (sendPayload : loc) : idPayload :=
  {| ip_Payload := sendPayload; ip_Id := payloadIdOf (N.of_nat (S j)) |}.

(** The priority byte [bufferPayload] writes for a payload. *)
Definition wirePriority (priority : Z) : Z :=
  if negb (priority =? 10) && negb (priority =? 5) then 5 else priority.

(** A frame as the peer expects it: the type byte 2, then the number of bytes
    that follow the five header bytes, big-endian, then at least one byte. *)
Definition frameOK (frame : list Z) : Prop :=
  5 < len frame
  ∧ take 5 frame = [2] ++ putUint32 (uint32 (len frame - 5)).

(** ** Example data *)

(** A marshaller for payloads whose alert body is already a byte string: it
    fails when the body is longer than the maximum size. *)
#[global] Instance bytesMarshaller : Marshaller (list Z) :=
  λ p maxPayloadSize,
    if len (PayloadData p) <=? maxPayloadSize then Some (PayloadData p) else None.

Definition exSocket : NetConn := mkNetConn [] [] false.

Definition exToken : string :=
  "000102030405060708090a0b0c0d0e0f101112131415161718191A1B1C1D1E1F".

(** Three payloads: priority 10, priority 7, and a one-byte token. *)
Definition exHeap : gmap loc (Payload (list Z)) :=
  <[1%positive := mkPayload exToken 7 10 [1; 2; 3]]>
    (<[2%positive := mkPayload exToken 0 7 [4]]>
       (<[3%positive := mkPayload "ab" 0 5 []]> ∅)).

(** Three submissions with a timer tick in between, and where they leave a
    fresh connection. *)
Definition exEvents : list Event :=
  [Submit (Some 1%positive); Submit (Some 2%positive); Timeout;
   Submit (Some 3%positive)].

Definition exOutcome : @Outcome (list Z) :=
  Eval vm_compute in
    default (Listening ∅ (NewAPNSConnection exSocket))
      (sendListener exHeap (NewAPNSConnection exSocket) exEvents).

(** The same submissions closed by an error for the second of them. *)
Definition exInvalidToken : AppleError :=
  {| MessageId := 2; ErrorCode := 8; ErrorString := "INVALID_TOKEN" |}.

Definition exClosed : @Outcome (list Z) :=
  Eval vm_compute in
    default (Listening ∅ (NewAPNSConnection exSocket))
      (sendListener exHeap (NewAPNSConnection exSocket)
         (exEvents ++ [ErrClose exInvalidToken])).

Definition exReport : ConnectionClose :=
  Eval vm_compute in
    default (mkConnectionClose [] exInvalidToken None false)
      (closeReport (Some exClosed)).

(** The item of the first payload under the id that follows [exEvents]. *)
Definition exItem : Payload (list Z) * list Z :=
  Eval vm_compute in
    default (mkPayload EmptyString 0 0 [], [])
      (itemBuffer (mkPayload exToken 7 10 [1; 2; 3])
         (nextPayloadId (outcome_conn exOutcome)).1).

(** A payload whose token is no hex string. *)
Definition badHeap : gmap loc (Payload (list Z)) :=
  <[4%positive := mkPayload "0g" 0 10 [1]]> exHeap.

(** A token of 65536 bytes: 131072 hex digits. *)
Definition hugeToken : string := Nat.iter 16 (λ s, s +:+ s) "00".

Definition hugeHeap : gmap loc (Payload (list Z)) :=
  <[1%positive := mkPayload hugeToken 0 10 []]> ∅.

(** * Properties *)

(** ** Bytes *)

Lemma length_putUint32 v : length (putUint32 v) = 4%nat.
Proof. reflexivity. Qed.

Lemma length_putUint16 v : length (putUint16 v) = 2%nat.
Proof. reflexivity. Qed.

Lemma len_app {A} (l k : list A) : len (l ++ k) = len l + len k.
Proof. unfold len. rewrite length_app. lia. Qed.

Lemma len_nonneg {A} (l : list A) : 0 <= len l.
Proof. unfold len. lia. Qed.

Lemma uint8_small z : 0 <= z < 256 → uint8 z = z.
Proof. intros Hz. unfold uint8. apply Z.mod_small. lia. Qed.

(** A byte of a big-endian word, read back bit by bit. *)
Lemma testbit_be_byte v k n :
  0 <= k → 0 <= n →
  Z.testbit (Z.shiftl (uint8 (Z.shiftr v k)) k) n
  = (k <=? n) && (n <? k + 8) && Z.testbit v n.
Proof.
  intros Hk Hn. rewrite Z.shiftl_spec by done.
  destruct (Z.leb_spec k n) as [Hkn | Hkn]; simpl.
  - unfold uint8. rewrite Z.testbit_mod_pow2 by lia.
    rewrite Z.shiftr_spec by lia.
    replace (n - k + k) with n by lia.
    destruct (Z.ltb_spec (n - k) 8), (Z.ltb_spec n (k + 8)); done || lia.
  - apply Z.testbit_neg_r. lia.
Qed.

Lemma Uint32_putUint32 v rest :
  0 <= v < 2 ^ 32 → Uint32 (putUint32 v ++ rest) = Some v.
Proof.
  intros Hv. unfold putUint32, Uint32. simpl. f_equal.
  apply Z.bits_inj'. intros n Hn.
  rewrite !Z.lor_spec.
  rewrite !testbit_be_byte by lia.
  replace (uint8 v) with (Z.shiftl (uint8 (Z.shiftr v 0)) 0)
    by (rewrite Z.shiftl_0_r, Z.shiftr_0_r; done).
  rewrite testbit_be_byte by lia.
  destruct (Z.ltb_spec n 32) as [Hlt | Hge].
  - destruct (Z.testbit v n); [| by rewrite !andb_false_r].
    rewrite !andb_true_r.
    destruct (Z.leb_spec 24 n), (Z.leb_spec 16 n), (Z.leb_spec 8 n),
      (Z.leb_spec 0 n), (Z.ltb_spec n (24 + 8)), (Z.ltb_spec n (16 + 8)),
      (Z.ltb_spec n (8 + 8)), (Z.ltb_spec n (0 + 8)); simpl; done || lia.
  - rewrite <- (Z.mod_small v (2 ^ 32)) by done.
    rewrite Z.mod_pow2_bits_high by lia.
    by rewrite !andb_false_r.
Qed.

(** ** Flushing *)

(** The frame [flushBufferToSocket] hands to the transport: the buffer with
    bytes 1 to 4 replaced by the big-endian frame length. *)
Lemma flushBufferToSocket_long (c : APNSConnection) :
  5 < len (inFlightByteBuffer c) →
  let frame := take 1 (inFlightByteBuffer c)
                 ++ putUint32 (uint32 (len (inFlightByteBuffer c) - 5))
                 ++ drop 5 (inFlightByteBuffer c) in
  flushBufferToSocket c
  = Some (mkAPNSConnection
            (mkNetConn (conn_written (socket c) ++ [frame])
               (tail (conn_writeErrs (socket c)))
               (conn_closed (socket c) || nextWriteFails (socket c)))
            (inFlightPayloadBuffer c) (inFlightPayloadBufferSize c)
            frame (inFlightId c) (payloadIdCounter c)).
Proof.
  intros Hlen frame. unfold flushBufferToSocket.
  destruct (Z.eqb_spec (len (inFlightByteBuffer c)) 0) as [?|_]; [lia|].
  destruct (Z.eqb_spec (len (inFlightByteBuffer c)) 5) as [?|_]; [lia|].
  cbn [orb]. subst frame.
  generalize (uint32 (len (inFlightByteBuffer c) - 5)); intros fl.
  destruct c as [s replay size buf lid counter]; cbn [inFlightByteBuffer] in *.
  destruct buf as [|b0 [|b1 [|b2 [|b3 [|b4 rest]]]]];
    try (unfold len in Hlen; simpl in Hlen; lia).
  unfold setIndex; simpl.
  repeat (case_decide; [simpl | exfalso; simpl in *; lia]).
  unfold conn_Write, nextWriteFails, noFlushDisconnect, conn_Close, set_socket;
    simpl.
  destruct s as [written [|e errs] closed]; simpl.
  - by rewrite orb_false_r.
  - destruct e; simpl; by rewrite ?orb_true_r, ?orb_false_r.
Qed.

(** On a buffer of one to four bytes the index assignments panic. *)
Lemma flushBufferToSocket_short (c : APNSConnection) :
  0 < len (inFlightByteBuffer c) < 5 → flushBufferToSocket c = None.
Proof.
  intros Hlen. unfold flushBufferToSocket.
  destruct (Z.eqb_spec (len (inFlightByteBuffer c)) 0) as [?|_]; [lia|].
  destruct (Z.eqb_spec (len (inFlightByteBuffer c)) 5) as [?|_]; [lia|].
  cbn [orb].
  generalize (uint32 (len (inFlightByteBuffer c) - 5)); intros fl.
  destruct c as [s replay size buf lid counter]; cbn [inFlightByteBuffer] in *.
  destruct buf as [|b0 [|b1 [|b2 [|b3 [|b4 rest]]]]];
    try (unfold len in Hlen; simpl in Hlen; lia);
    unfold setIndex; simpl;
    repeat (case_decide; simpl in *; try lia); reflexivity.
Qed.

Lemma flushBufferToSocket_noop (c : APNSConnection) :
  len (inFlightByteBuffer c) = 0 ∨ len (inFlightByteBuffer c) = 5 →
  flushBufferToSocket c = Some c.
Proof.
  intros Hlen. unfold flushBufferToSocket.
  destruct (Z.eqb_spec (len (inFlightByteBuffer c)) 0),
    (Z.eqb_spec (len (inFlightByteBuffer c)) 5); simpl; done || lia.
Qed.

(** C7: [flushBufferToSocket] leaves the connection as it is exactly when the
    byte buffer is empty or holds five bytes (the header alone).  On a longer
    buffer it puts the frame length, the total length minus 5, big-endian
    into bytes 1 to 4 of the buffer, hands the whole buffer to one
    [socket.Write], and closes the socket when that write fails; nothing is
    written a second time. *)
Theorem flushBufferToSocket_spec (c : APNSConnection) :
  (flushBufferToSocket c = Some c
   ↔ len (inFlightByteBuffer c) = 0 ∨ len (inFlightByteBuffer c) = 5)
  ∧ (5 < len (inFlightByteBuffer c) →
     ∃ c' frame,
       flushBufferToSocket c = Some c'
       ∧ frame = take 1 (inFlightByteBuffer c)
                   ++ putUint32 (uint32 (len (inFlightByteBuffer c) - 5))
                   ++ drop 5 (inFlightByteBuffer c)
       ∧ (len (inFlightByteBuffer c) - 5 < 2 ^ 32 →
          Uint32 (drop 1 frame) = Some (len (inFlightByteBuffer c) - 5))
       ∧ inFlightByteBuffer c' = frame
       ∧ conn_written (socket c') = conn_written (socket c) ++ [frame]
       ∧ conn_closed (socket c')
         = conn_closed (socket c) || nextWriteFails (socket c)
       ∧ conn_writeErrs (socket c') = tail (conn_writeErrs (socket c))
       ∧ inFlightPayloadBuffer c' = inFlightPayloadBuffer c
       ∧ inFlightPayloadBufferSize c' = inFlightPayloadBufferSize c
       ∧ inFlightId c' = inFlightId c
       ∧ payloadIdCounter c' = payloadIdCounter c).
Proof.
  split.
  - split; [| apply flushBufferToSocket_noop].
    intros Hflush.
    destruct (decide (len (inFlightByteBuffer c) = 0)) as [|Hne0]; [by left|].
    destruct (decide (len (inFlightByteBuffer c) = 5)) as [|Hne5]; [by right|].
    exfalso. pose proof (len_nonneg (inFlightByteBuffer c)).
    destruct (decide (len (inFlightByteBuffer c) < 5)) as [Hshort|Hlong].
    + rewrite flushBufferToSocket_short in Hflush by lia. discriminate.
    + rewrite flushBufferToSocket_long in Hflush by lia.
      injection Hflush as Hc. apply (f_equal (λ c, length (conn_written (socket c)))) in Hc.
      simpl in Hc. rewrite length_app in Hc. simpl in Hc. lia.
  - intros Hlen. eexists _, _. split; [by apply flushBufferToSocket_long|].
    split; [reflexivity|]. split; [|by repeat split].
    intros Hsmall.
    destruct (inFlightByteBuffer c) as [|b0 rest]; [unfold len in Hlen; simpl in Hlen; lia|].
    cbn [take drop app].
    assert (uint32 (len (b0 :: rest) - 5) = len (b0 :: rest) - 5) as ->
      by (unfold uint32; apply Z.mod_small; lia).
    apply Uint32_putUint32. lia.
Qed.

Lemma flushBufferToSocket_total (c : APNSConnection) :
  bufferOK c → is_Some (flushBufferToSocket c).
Proof.
  intros Hok.
  destruct (decide (len (inFlightByteBuffer c) = 0 ∨ len (inFlightByteBuffer c) = 5)).
  - rewrite flushBufferToSocket_noop; done.
  - rewrite flushBufferToSocket_long; [done|]. unfold bufferOK in Hok. lia.
Qed.

(** What a flush may change: the four length bytes and the socket. *)
Lemma flushBufferToSocket_effect (c c' : APNSConnection) :
  flushBufferToSocket c = Some c' →
  inFlightPayloadBuffer c' = inFlightPayloadBuffer c
  ∧ inFlightPayloadBufferSize c' = inFlightPayloadBufferSize c
  ∧ inFlightId c' = inFlightId c
  ∧ payloadIdCounter c' = payloadIdCounter c
  ∧ len (inFlightByteBuffer c') = len (inFlightByteBuffer c)
  ∧ (conn_written (socket c') = conn_written (socket c)
     ∨ conn_written (socket c')
       = conn_written (socket c) ++ [inFlightByteBuffer c']).
Proof.
  intros Hflush. pose proof (len_nonneg (inFlightByteBuffer c)).
  destruct (decide (len (inFlightByteBuffer c) = 0 ∨ len (inFlightByteBuffer c) = 5)).
  - rewrite flushBufferToSocket_noop in Hflush by done.
    injection Hflush as <-. by repeat split; try left.
  - destruct (decide (len (inFlightByteBuffer c) < 5)).
    + rewrite flushBufferToSocket_short in Hflush by lia. discriminate.
    + rewrite flushBufferToSocket_long in Hflush by lia.
      injection Hflush as <-.
      cbn [inFlightPayloadBuffer inFlightPayloadBufferSize inFlightId
             payloadIdCounter inFlightByteBuffer socket conn_written].
      repeat split; [|by right].
      unfold len in *.
      rewrite length_app, length_take. cbn [length].
      rewrite length_drop. lia.
Qed.

Lemma Disconnect_effect (c c' : APNSConnection) :
  Disconnect c = Some c' →
  inFlightPayloadBuffer c' = inFlightPayloadBuffer c
  ∧ inFlightPayloadBufferSize c' = inFlightPayloadBufferSize c
  ∧ inFlightId c' = inFlightId c
  ∧ payloadIdCounter c' = payloadIdCounter c
  ∧ len (inFlightByteBuffer c') = len (inFlightByteBuffer c)
  ∧ (conn_written (socket c') = conn_written (socket c)
     ∨ conn_written (socket c')
       = conn_written (socket c) ++ [inFlightByteBuffer c']).
Proof.
  unfold Disconnect. intros Hd.
  destruct (flushBufferToSocket c) as [c1|] eqn:Hflush; [|discriminate].
  simpl in Hd. injection Hd as <-.
  apply flushBufferToSocket_effect in Hflush. exact Hflush.
Qed.

Lemma Disconnect_total (c : APNSConnection) :
  bufferOK c → is_Some (Disconnect c).
Proof.
  intros Hok. unfold Disconnect.
  destruct (flushBufferToSocket_total c Hok) as [c1 ->]. done.
Qed.

(** ** The error listener *)

Lemma closeListener_read_ok (b0 b1 b2 b3 b4 b5 : Z) :
  closeListener (mkReadResult [b0; b1; b2; b3; b4; b5] None)
  = Some {| MessageId :=
              Z.lor (Z.lor (Z.lor (Z.shiftl b2 24) (Z.shiftl b3 16))
                       (Z.shiftl b4 8)) b5;
            ErrorCode := uint8 b1;
            ErrorString := mapIndex APPLE_PUSH_RESPONSES (uint8 b1) |}.
Proof. reflexivity. Qed.

(** C2, as the code has it: a response of six bytes whose code byte is not a
    key of [APPLE_PUSH_RESPONSES] yields an error that carries the code byte
    as it came and the empty string, with the id read big-endian from the
    last four bytes; nothing maps the code to 255 or the string to
    UNKNOWN. *)
Theorem closeListener_unlisted_code (data : list Z) (code : Z) :
  length data = 6%nat →
  data !! 1%nat = Some code →
  0 <= code < 256 →
  APPLE_PUSH_RESPONSES !! code = None →
  ∃ messageId,
    Uint32 (drop 2 data) = Some messageId
    ∧ closeListener (mkReadResult data None)
      = Some {| MessageId := messageId; ErrorCode := code;
                ErrorString := EmptyString |}
    ∧ code ≠ 255.
Proof.
  intros Hlen Hcode Hrange Hmiss.
  destruct data as [|b0 [|b1 [|b2 [|b3 [|b4 [|b5 [|]]]]]]]; try discriminate.
  simpl in Hcode. injection Hcode as ->.
  eexists. split; [reflexivity|].
  rewrite closeListener_read_ok, uint8_small by done.
  unfold mapIndex. rewrite Hmiss. split; [reflexivity|].
  intros ->. vm_compute in Hmiss. discriminate.
Qed.

(** The six-byte buffer always holds the four bytes of an id: the listener
    does not panic. *)
Lemma closeListener_total (r : ReadResult) : is_Some (closeListener r).
Proof.
  destruct r as [data [msg|]]; [done|].
  unfold closeListener, conn_Read. cbn.
  by destruct data as [|b0 [|b1 [|b2 [|b3 [|b4 [|b5 rest]]]]]].
Qed.

(** A failed read yields the shutdown error, whatever arrived. *)
Lemma closeListener_read_failure (data : list Z) (msg : string) :
  closeListener (mkReadResult data (Some msg))
  = Some {| MessageId := 0; ErrorCode := 10; ErrorString := msg |}.
Proof. reflexivity. Qed.

(** ** The id counter *)

Lemma nextPayloadId_eq (c : APNSConnection) :
  nextPayloadId c
  = let v := uint32 (payloadIdCounter c + 1) in
    let id := if v =? 0 then 1 else v in
    (id, set_payloadIdCounter id c).
Proof.
  unfold nextPayloadId. cbn.
  destruct (uint32 (payloadIdCounter c + 1) =? 0); reflexivity.
Qed.

Lemma payloadIdOf_succ (n : N) :
  payloadIdOf (N.succ n)
  = let v := uint32 (payloadIdOf n + 1) in if v =? 0 then 1 else v.
Proof.
  unfold payloadIdOf. rewrite N.iter_succ.
  generalize (N.iter n (λ c, (nextPayloadId c).2)
                (NewAPNSConnection (mkNetConn [] [] false))).
  intros c. rewrite nextPayloadId_eq. cbn.
  destruct (uint32 (payloadIdCounter c + 1) =? 0); reflexivity.
Qed.

(** The counter runs through 1, ..., 2^32 - 1 and starts again at 1. *)
Lemma payloadIdOf_closed (n : N) :
  payloadIdOf n
  = if (n =? 0)%N then 0 else Z.of_N (n - 1) mod (2 ^ 32 - 1) + 1.
Proof.
  pattern n. apply N.peano_ind; [reflexivity | clear n; intros n IH].
  rewrite payloadIdOf_succ, IH. cbv zeta.
  destruct (N.eqb_spec (N.succ n) 0) as [|_]; [lia|].
  replace (N.succ n - 1)%N with n by lia.
  destruct (N.eqb_spec n 0) as [Hz|Hn]; [subst n; reflexivity|].
  unfold uint32.
  pose proof (Z.mod_pos_bound (Z.of_N (n - 1)) (2 ^ 32 - 1) ltac:(lia)) as Hr.
  pose proof (Z.div_mod (Z.of_N (n - 1)) (2 ^ 32 - 1) ltac:(lia)) as Hdm.
  set (q := Z.of_N (n - 1) / (2 ^ 32 - 1)) in *.
  set (r := Z.of_N (n - 1) mod (2 ^ 32 - 1)) in *.
  assert (Z.of_N n = (2 ^ 32 - 1) * q + (r + 1)) as Hn' by lia.
  destruct (decide (r + 1 = 2 ^ 32 - 1)) as [Hwrap | Hnowrap].
  - replace (r + 1 + 1) with (2 ^ 32) by lia.
    rewrite Z.mod_same by lia. cbn [Z.eqb].
    rewrite <- (Z.mod_unique (Z.of_N n) (2 ^ 32 - 1) (q + 1) 0); lia.
  - rewrite (Z.mod_small (r + 1 + 1)) by lia.
    destruct (Z.eqb_spec (r + 1 + 1) 0) as [|_]; [lia|].
    rewrite <- (Z.mod_unique (Z.of_N n) (2 ^ 32 - 1) q (r + 1)); lia.
Qed.

Lemma payloadIdOf_range (n : N) :
  (1 <= n)%N → 1 <= payloadIdOf n <= 2 ^ 32 - 1.
Proof.
  intros Hn. rewrite payloadIdOf_closed.
  destruct (N.eqb_spec n 0) as [|_]; [lia|].
  pose proof (Z.mod_pos_bound (Z.of_N (n - 1)) (2 ^ 32 - 1) ltac:(lia)). lia.
Qed.

(** Two submissions less than 2^32 - 1 apart have different ids. *)
Lemma payloadIdOf_window (n m : N) :
  (1 <= n)%N → (n < m)%N → (m < n + 4294967295)%N →
  payloadIdOf m ≠ payloadIdOf n.
Proof.
  intros Hn Hnm Hm. rewrite !payloadIdOf_closed.
  destruct (N.eqb_spec n 0) as [|_]; [lia|].
  destruct (N.eqb_spec m 0) as [|_]; [lia|].
  intros Heq.
  pose proof (Z.div_mod (Z.of_N (n - 1)) (2 ^ 32 - 1) ltac:(lia)) as Hdn.
  pose proof (Z.div_mod (Z.of_N (m - 1)) (2 ^ 32 - 1) ltac:(lia)) as Hdm.
  assert (Z.of_N (m - 1) mod (2 ^ 32 - 1) = Z.of_N (n - 1) mod (2 ^ 32 - 1))
    as Hmod by lia.
  rewrite Hmod in Hdm.
  assert (Z.of_N (m - 1) - Z.of_N (n - 1)
          = (2 ^ 32 - 1) * (Z.of_N (m - 1) / (2 ^ 32 - 1)
                            - Z.of_N (n - 1) / (2 ^ 32 - 1))) as Hdiff by lia.
  assert (0 < Z.of_N (m - 1) - Z.of_N (n - 1) < 2 ^ 32 - 1) as Hgap by lia.
  nia.
Qed.

(** C6, as the code has it: the id of a submission is never zero, the first
    one is 1, each next one is one more, after 2^32 - 1 comes 1 again, and
    no id comes twice among 2^32 - 1 submissions in a row. *)
Theorem payloadIds_spec (n : N) :
  (1 <= n)%N →
  1 <= payloadIdOf n <= 2 ^ 32 - 1
  ∧ payloadIdOf 1 = 1
  ∧ (payloadIdOf n < 2 ^ 32 - 1 → payloadIdOf (n + 1) = payloadIdOf n + 1)
  ∧ (payloadIdOf n = 2 ^ 32 - 1 → payloadIdOf (n + 1) = 1)
  ∧ (∀ m, (n < m)%N → (m < n + 4294967295)%N →
       payloadIdOf m ≠ payloadIdOf n).
Proof.
  intros Hn. pose proof (payloadIdOf_range n Hn) as Hrange.
  split; [done|]. split; [reflexivity|].
  rewrite N.add_1_r, payloadIdOf_succ. cbv zeta. unfold uint32.
  split; [|split].
  - intros Hlt. rewrite Z.mod_small by lia.
    destruct (Z.eqb_spec (payloadIdOf n + 1) 0); lia.
  - intros ->. reflexivity.
  - intros m. by apply payloadIdOf_window.
Qed.

(** C6, the claim as written fails: the submission number 2^32 gets the id
    of the first one. *)
Lemma payloadId_repeats :
  (1 < 4294967296)%N ∧ payloadIdOf 4294967296 = payloadIdOf 1.
Proof.
  split; [reflexivity|].
  rewrite (payloadIdOf_closed 4294967296). reflexivity.
Qed.

(** ** Encoding and buffering *)

Section Encoding.
Context {D : Type} {marshaller : Marshaller D}.
Implicit Types (h : gmap loc (Payload D)) (p : Payload D).

Lemma set_Priority_same p : set_Priority (Priority p) p = p.
Proof. by destruct p. Qed.

Lemma wirePriority_5_10 (priority : Z) :
  priority = 5 ∨ priority = 10 → wirePriority priority = priority.
Proof. by intros [-> | ->]. Qed.

Lemma wirePriority_other (priority : Z) :
  priority ≠ 5 → priority ≠ 10 → wirePriority priority = 5.
Proof.
  intros H5 H10. unfold wirePriority.
  destruct (Z.eqb_spec priority 10), (Z.eqb_spec priority 5); done.
Qed.

(** The item of a payload whose token decodes and whose body marshals. *)
Lemma itemBuffer_Some p (Id : Z) (token payloadBytes : list Z) :
  DecodeString (Token p) = Some token →
  marshalAlertBodyPayload p 256 = Some payloadBytes →
  itemBuffer p Id
  = Some (set_Priority (wirePriority (Priority p)) p,
          [uint8 0] ++ putUint16 (uint16 (32 + len payloadBytes + 4 + 4 + 1))
            ++ token ++ payloadBytes ++ putUint32 Id
            ++ putUint32 (ExpirationTime p) ++ [wirePriority (Priority p)]).
Proof.
  intros Htoken Hbody. unfold itemBuffer, wirePriority.
  rewrite Htoken. cbn [mbind option_bind]. rewrite Hbody. cbn [mbind option_bind].
  destruct (negb (Priority p =? 10) && negb (Priority p =? 5)); [done|].
  by rewrite set_Priority_same.
Qed.

Lemma itemBuffer_None p (Id : Z) :
  itemBuffer p Id = None
  ↔ DecodeString (Token p) = None ∨ marshalAlertBodyPayload p 256 = None.
Proof.
  unfold itemBuffer.
  destruct (DecodeString (Token p)) as [token|]; cbn [mbind option_bind];
    [|by split; [left|]].
  destruct (marshalAlertBodyPayload p 256) as [payloadBytes|];
    cbn [mbind option_bind]; [|by split; [right|]].
  split; [done | by intros [|]].
Qed.

(** An item that [itemBuffer] returns changes nothing of the payload but
    its priority. *)
Lemma itemBuffer_payload p p' (Id : Z) (item : list Z) :
  itemBuffer p Id = Some (p', item) →
  p' = set_Priority (wirePriority (Priority p)) p ∧ (0 < length item)%nat.
Proof.
  intros Hitem.
  destruct (DecodeString (Token p)) as [token|] eqn:Htoken;
    [|by rewrite (proj2 (itemBuffer_None p Id)) in Hitem; [|left]].
  destruct (marshalAlertBodyPayload p 256) as [payloadBytes|] eqn:Hbody;
    [|by rewrite (proj2 (itemBuffer_None p Id)) in Hitem; [|right]].
  rewrite (itemBuffer_Some p Id token payloadBytes) in Hitem by done.
  injection Hitem as <- <-. split; [done|]. simpl. lia.
Qed.

(** [bufferPayload] on a payload that encodes: the three ways the item gets
    into the byte buffer. *)
Lemma bufferPayload_encoded h (c : APNSConnection) (idPayloadObj : idPayload)
    p p' (item : list Z) :
  bufferOK c →
  h !! ip_Payload idPayloadObj = Some p →
  itemBuffer p (ip_Id idPayloadObj) = Some (p', item) →
  ∃ c' frame localId,
    bufferPayload h c idPayloadObj
    = Some (<[ip_Payload idPayloadObj := p']> h, c')
    ∧ inFlightByteBuffer c' = frame ++ <[0%nat := localId]> item
    ∧ inFlightId c' = localId
    ∧ inFlightPayloadBuffer c' = inFlightPayloadBuffer c
    ∧ inFlightPayloadBufferSize c' = inFlightPayloadBufferSize c
    ∧ payloadIdCounter c' = payloadIdCounter c
    ∧ ((TCP_FRAME_MAX < len (inFlightByteBuffer c) + len item
        ∧ frame = [2; 0; 0; 0; 0] ∧ localId = 0
        ∧ ∃ cf, flushBufferToSocket c = Some cf ∧ socket c' = socket cf)
       ∨ (len (inFlightByteBuffer c) + len item <= TCP_FRAME_MAX
          ∧ len (inFlightByteBuffer c) = 0
          ∧ frame = [2; 0; 0; 0; 0] ∧ localId = 0
          ∧ socket c' = socket c)
       ∨ (len (inFlightByteBuffer c) + len item <= TCP_FRAME_MAX
          ∧ len (inFlightByteBuffer c) ≠ 0
          ∧ frame = inFlightByteBuffer c
          ∧ localId = uint8 (inFlightId c + 1)
          ∧ socket c' = socket c)).
Proof.
  intros Hok Hp Hitem. unfold bufferPayload.
  rewrite Hp. cbn [mbind option_bind]. rewrite Hitem.
  destruct (Z.gtb_spec (len (inFlightByteBuffer c) + len item) TCP_FRAME_MAX)
    as [Hover | Hfits].
  - cbn [orb].
    destruct (flushBufferToSocket_total c Hok) as [cf Hflush].
    rewrite Hflush. cbn [mbind option_bind].
    apply flushBufferToSocket_effect in Hflush as Hcf.
    destruct Hcf as (? & ? & ? & ? & ? & ?).
    eexists _, [2; 0; 0; 0; 0], 0. split; [reflexivity|].
    cbn. repeat split; try done.
    left. repeat split; try done. by exists cf.
  - cbn [orb].
    destruct (Z.eqb_spec (len (inFlightByteBuffer c)) 0) as [Hempty | Hnonempty].
    + cbn [mbind option_bind].
      eexists _, [2; 0; 0; 0; 0], 0. split; [reflexivity|].
      destruct (inFlightByteBuffer c) eqn:Hbuf;
        [|unfold len in Hempty; simpl in Hempty; lia].
      cbn. repeat split; try done.
      right; left. by repeat split.
    + cbn [mbind option_bind].
      eexists _, (inFlightByteBuffer c), (uint8 (inFlightId c + 1)).
      split; [reflexivity|].
      cbn. repeat split; try done.
      right; right. by repeat split.
Qed.

(** [bufferPayload] on a payload that does not encode: the connection is
    torn down and nothing else happens. *)
Lemma bufferPayload_teardown h (c : APNSConnection) (idPayloadObj : idPayload) p :
  bufferOK c →
  h !! ip_Payload idPayloadObj = Some p →
  itemBuffer p (ip_Id idPayloadObj) = None →
  ∃ c', bufferPayload h c idPayloadObj = Some (h, c')
        ∧ Disconnect c = Some c'
        ∧ conn_closed (socket c') = true.
Proof.
  intros Hok Hp Hitem. unfold bufferPayload.
  rewrite Hp. cbn [mbind option_bind]. rewrite Hitem.
  destruct (Disconnect_total c Hok) as [c' Hd]. rewrite Hd.
  exists c'. repeat split.
  unfold Disconnect in Hd.
  destruct (flushBufferToSocket c); [|done]. by injection Hd as <-.
Qed.

Lemma putUint16_bytes (v : Z) :
  0 <= v < 2 ^ 16 →
  ∃ hi lo, putUint16 (uint16 v) = [hi; lo]
           ∧ 0 <= hi < 256 ∧ 0 <= lo < 256 ∧ hi * 256 + lo = v.
Proof.
  intros Hv. exists (v / 256), (v mod 256).
  unfold putUint16, uint16, uint8.
  rewrite (Z.mod_small v (2 ^ 16)) by done.
  rewrite Z.shiftr_div_pow2 by lia.
  change (2 ^ 8) with 256.
  pose proof (Z.div_mod v 256 ltac:(lia)).
  pose proof (Z.mod_pos_bound v 256 ltac:(lia)).
  assert (0 <= v / 256 < 256) by (split; [apply Z.div_pos | apply Z.div_lt_upper_bound]; lia).
  rewrite (Z.mod_small (v / 256)) by done.
  repeat split; lia.
Qed.

(** C5, as the code has it: for a token that decodes to 32 bytes and a body
    that marshals (to fewer than 65495 bytes), the two length bytes of the
    item hold 32 + len(payloadBytes) + 4 + 4 + 1, and that many bytes follow
    them in the byte buffer: token, body, id, expiration, priority. *)
Theorem itemLength_matches_written h (c : APNSConnection)
    (idPayloadObj : idPayload) p (token payloadBytes : list Z) :
  bufferOK c →
  h !! ip_Payload idPayloadObj = Some p →
  DecodeString (Token p) = Some token →
  marshalAlertBodyPayload p 256 = Some payloadBytes →
  length token = 32%nat →
  32 + len payloadBytes + 4 + 4 + 1 < 2 ^ 16 →
  ∃ h' c' frame localId hi lo body,
    bufferPayload h c idPayloadObj = Some (h', c')
    ∧ inFlightByteBuffer c' = frame ++ [localId] ++ [hi; lo] ++ body
    ∧ 0 <= hi < 256 ∧ 0 <= lo < 256
    ∧ hi * 256 + lo = 32 + len payloadBytes + 4 + 4 + 1
    ∧ body = token ++ payloadBytes ++ putUint32 (ip_Id idPayloadObj)
               ++ putUint32 (ExpirationTime p) ++ [wirePriority (Priority p)]
    ∧ len body = 32 + len payloadBytes + 4 + 4 + 1.
Proof.
  intros Hok Hp Htoken Hbody Hlen32 Hsmall.
  pose proof (itemBuffer_Some p (ip_Id idPayloadObj) token payloadBytes
                Htoken Hbody) as Hitem.
  destruct (bufferPayload_encoded h c idPayloadObj p _ _ Hok Hp Hitem)
    as (c' & frame & localId & Hbuffer & Hbytes & _).
  pose proof (len_nonneg payloadBytes).
  destruct (putUint16_bytes (32 + len payloadBytes + 4 + 4 + 1) ltac:(lia))
    as (hi & lo & Hfield & Hhi & Hlo & Hvalue).
  rewrite Hfield in Hbytes.
  eexists _, c', frame, localId, hi, lo, _.
  split; [exact Hbuffer|]. split; [exact Hbytes|].
  repeat split; try done; try lia.
  unfold len. rewrite !length_app, !length_putUint32, Hlen32.
  unfold len. cbn [length]. lia.
Qed.

(** C8: the last byte of the item that [bufferPayload] puts into the byte
    buffer is 5 when the payload's priority is neither 5 nor 10, and the
    payload's priority when it is 5 or 10. *)
Theorem priority_byte_normalized h (c : APNSConnection)
    (idPayloadObj : idPayload) p (token payloadBytes : list Z) :
  bufferOK c →
  h !! ip_Payload idPayloadObj = Some p →
  DecodeString (Token p) = Some token →
  marshalAlertBodyPayload p 256 = Some payloadBytes →
  ∃ h' c',
    bufferPayload h c idPayloadObj = Some (h', c')
    ∧ (Priority p ≠ 5 → Priority p ≠ 10 →
       last (inFlightByteBuffer c') = Some 5)
    ∧ (Priority p = 5 ∨ Priority p = 10 →
       last (inFlightByteBuffer c') = Some (Priority p)).
Proof.
  intros Hok Hp Htoken Hbody.
  pose proof (itemBuffer_Some p (ip_Id idPayloadObj) token payloadBytes
                Htoken Hbody) as Hitem.
  destruct (bufferPayload_encoded h c idPayloadObj p _ _ Hok Hp Hitem)
    as (c' & frame & localId & Hbuffer & Hbytes & _).
  assert (last (inFlightByteBuffer c') = Some (wirePriority (Priority p)))
    as Hlast.
  { rewrite Hbytes. cbn [app list_insert insert].
    rewrite !app_comm_cons, !app_assoc. apply last_snoc. }
  eexists _, c'. split; [exact Hbuffer|]. split.
  - intros H5 H10. by rewrite Hlast, wirePriority_other.
  - intros H510. by rewrite Hlast, wirePriority_5_10.
Qed.

(** C9, as the code has it: [bufferPayload] writes to the payload it is
    given, and to nothing else on the heap.  It leaves the token, the
    expiration time and the alert fields as they are and sets [Priority] to 5
    when it is neither 5 nor 10; a payload of priority 5 or 10, and a payload
    that does not encode (the connection is torn down), is left untouched. *)
Theorem bufferPayload_heap_effect h (c : APNSConnection)
    (idPayloadObj : idPayload) p :
  bufferOK c →
  h !! ip_Payload idPayloadObj = Some p →
  ∃ h' c' p',
    bufferPayload h c idPayloadObj = Some (h', c')
    ∧ h' = <[ip_Payload idPayloadObj := p']> h
    ∧ Token p' = Token p
    ∧ ExpirationTime p' = ExpirationTime p
    ∧ PayloadData p' = PayloadData p
    ∧ (Priority p' = Priority p
       ∨ Priority p ≠ 5 ∧ Priority p ≠ 10 ∧ Priority p' = 5
         ∧ is_Some (itemBuffer p (ip_Id idPayloadObj)))
    ∧ (Priority p = 5 ∨ Priority p = 10 → h' = h)
    ∧ (itemBuffer p (ip_Id idPayloadObj) = None →
       h' = h ∧ conn_closed (socket c') = true).
Proof.
  intros Hok Hp.
  destruct (itemBuffer p (ip_Id idPayloadObj)) as [[p' item]|] eqn:Hitem.
  - destruct (bufferPayload_encoded h c idPayloadObj p p' item Hok Hp Hitem)
      as (c' & frame & localId & Hbuffer & _).
    apply itemBuffer_payload in Hitem as [-> _].
    eexists _, c', _. split; [exact Hbuffer|]. split; [reflexivity|].
    cbn [set_Priority Token ExpirationTime PayloadData Priority].
    repeat split; try done.
    + destruct (decide (Priority p = 5 ∨ Priority p = 10)) as [H510 | Hother].
      * left. by apply wirePriority_5_10.
      * right. repeat split; [tauto | tauto | apply wirePriority_other; tauto | done].
    + intros H510. rewrite wirePriority_5_10, set_Priority_same by done.
      by apply insert_id.
  - destruct (bufferPayload_teardown h c idPayloadObj p Hok Hp Hitem)
      as (c' & Hbuffer & _ & Hclosed).
    exists h, c', p. split; [exact Hbuffer|].
    split; [symmetry; by apply insert_id|].
    repeat split; try done. by left.
Qed.

End Encoding.

(** ** The send loop *)

Section SendLoop.
Context {D : Type} {marshaller : Marshaller D}.
#[local] Arguments submit : simpl never.
#[local] Arguments flushBufferToSocket : simpl never.
Implicit Types (h : gmap loc (Payload D)) (p : Payload D) (l : loc).

Lemma bufferOK_new (socket : NetConn) (bufferSize : Z) :
  bufferOK (socketAPNSConnectionBufSize socket bufferSize).
Proof. by left. Qed.

Lemma bufferOK_flush (c c' : APNSConnection) :
  bufferOK c → flushBufferToSocket c = Some c' → bufferOK c'.
Proof.
  unfold bufferOK. intros Hok Hflush.
  apply flushBufferToSocket_effect in Hflush as (_ & _ & _ & _ & -> & _). done.
Qed.

(** ** One submission *)

(** [submit] up to its last call: the id is taken, the entry pushed and
    the oldest entry dropped when the replay buffer has grown over its
    size. *)
Lemma submit_eq h (c : APNSConnection) l :
  submit h c l
  = let idPayloadObj := {| ip_Payload := l; ip_Id := (nextPayloadId c).1 |} in
    let entries := idPayloadObj :: inFlightPayloadBuffer c in
    bufferPayload h
      (mkAPNSConnection (socket c)
         (if len entries >? inFlightPayloadBufferSize c
          then removelast entries else entries)
         (inFlightPayloadBufferSize c) (inFlightByteBuffer c) (inFlightId c)
         (nextPayloadId c).1)
      idPayloadObj.
Proof.
  unfold submit. rewrite nextPayloadId_eq. cbn.
  by destruct (len (_ :: inFlightPayloadBuffer c) >? inFlightPayloadBufferSize c).
Qed.

(** What one submission does to the connection and to the heap; the last
    part bounds the bytes it buffers and writes. *)
Lemma submit_effect h (c : APNSConnection) l p :
  bufferOK c →
  h !! l = Some p →
  ∃ h' c' p',
    submit h c l = Some (h', c')
    ∧ bufferOK c'
    ∧ h' = <[l := p']> h ∧ Token p' = Token p
    ∧ inFlightPayloadBufferSize c' = inFlightPayloadBufferSize c
    ∧ payloadIdCounter c' = (nextPayloadId c).1
    ∧ inFlightPayloadBuffer c'
      = (let entries := {| ip_Payload := l; ip_Id := (nextPayloadId c).1 |}
                          :: inFlightPayloadBuffer c in
         if len entries >? inFlightPayloadBufferSize c
         then removelast entries else entries)
    ∧ ((∀ p1 item, itemBuffer p (nextPayloadId c).1 = Some (p1, item) →
          5 + len item <= TCP_FRAME_MAX) →
       len (inFlightByteBuffer c) <= TCP_FRAME_MAX →
       Forall (λ frame, len frame <= TCP_FRAME_MAX) (conn_written (socket c)) →
       len (inFlightByteBuffer c') <= TCP_FRAME_MAX
       ∧ Forall (λ frame, len frame <= TCP_FRAME_MAX)
           (conn_written (socket c'))).
Proof.
  intros Hok Hp. rewrite submit_eq. cbv zeta.
  set (id := (nextPayloadId c).1).
  set (obj := {| ip_Payload := l; ip_Id := id |}).
  set (c2 := mkAPNSConnection _ _ _ _ _ _).
  assert (inFlightByteBuffer c2 = inFlightByteBuffer c
          ∧ socket c2 = socket c
          ∧ inFlightPayloadBufferSize c2 = inFlightPayloadBufferSize c
          ∧ payloadIdCounter c2 = id
          ∧ inFlightPayloadBuffer c2
            = (if len (obj :: inFlightPayloadBuffer c)
                    >? inFlightPayloadBufferSize c
               then removelast (obj :: inFlightPayloadBuffer c)
               else obj :: inFlightPayloadBuffer c))
    as (Hbuf2 & Hsock2 & Hsize2 & Hcounter2 & Hreplay2) by done.
  assert (bufferOK c2) as Hok2 by (unfold bufferOK; by rewrite Hbuf2).
  clearbody c2.
  destruct (itemBuffer p (ip_Id obj)) as [[p' item]|] eqn:Hitem.
  - destruct (bufferPayload_encoded h c2 obj p p' item Hok2 Hp Hitem)
      as (c' & frame & localId & Hbuffer & Hbytes & _ & Hreplay & Hsize
          & Hcounter & Hcases).
    apply itemBuffer_payload in Hitem as Hitem'. destruct Hitem' as [-> Hpos].
    exists (<[l := set_Priority (wirePriority (Priority p)) p]> h), c',
      (set_Priority (wirePriority (Priority p)) p).
    split; [exact Hbuffer|].
    assert (len (<[0%nat := localId]> item) = len item) as Hlen_item
      by (unfold len; by rewrite length_insert).
    split.
    { unfold bufferOK. right. rewrite Hbytes, len_app, Hlen_item.
      pose proof (len_nonneg item).
      destruct Hcases as [(_ & -> & _) | [(_ & _ & -> & _) | (_ & Hne & -> & _)]];
        try (unfold len at 1; simpl; lia).
      rewrite Hbuf2 in *. unfold bufferOK in Hok. lia. }
    split; [done|]. split; [done|].
    split; [congruence|]. split; [congruence|]. split; [congruence|].
    intros Hfit Hsmall Hframes.
    specialize (Hfit _ _ Hitem).
    rewrite Hbytes, len_app, Hlen_item.
    destruct Hcases as [(_ & -> & _ & cf & Hflush & ->)
                       | [(_ & _ & -> & _ & ->) | (Hle & _ & -> & _ & ->)]].
    + split; [unfold len at 1; simpl; lia|].
      apply flushBufferToSocket_effect in Hflush
        as (_ & _ & _ & _ & Hlen & [-> | ->]); rewrite ?Hsock2; [done|].
      apply Forall_app. split; [done|].
      apply Forall_singleton. rewrite Hlen, Hbuf2. done.
    + split; [unfold len at 1; simpl; lia|]. by rewrite Hsock2.
    + rewrite Hbuf2 in *. split; [done|]. by rewrite Hsock2.
  - destruct (bufferPayload_teardown h c2 obj p Hok2 Hp Hitem)
      as (c' & Hbuffer & Hd & _).
    apply Disconnect_effect in Hd
      as (Hreplay & Hsize & _ & Hcounter & Hlen & Hwritten).
    exists h, c', p. split; [exact Hbuffer|].
    split; [unfold bufferOK in *; by rewrite Hlen|].
    split; [symmetry; by apply insert_id|]. split; [done|].
    split; [congruence|]. split; [congruence|]. split; [congruence|].
    intros _ Hsmall Hframes. rewrite Hlen, Hbuf2. split; [done|].
    destruct Hwritten as [-> | ->]; rewrite Hsock2; [done|].
    apply Forall_app. split; [done|].
    apply Forall_singleton. rewrite Hlen, Hbuf2. done.
Qed.

(** [submit] dereferences the payload. *)
Lemma submit_allocated h (c : APNSConnection) l :
  is_Some (submit h c l) → is_Some (h !! l).
Proof.
  unfold submit. destruct (nextPayloadId c) as [id c1].
  unfold bufferPayload. cbn [ip_Payload].
  destruct (h !! l); [done|]. by intros [? ?].
Qed.

(** ** Runs *)

Lemma sendListener_submit (events : list Event) h (c : APNSConnection) l :
  sendListener h c (Submit (Some l) :: events)
  = submit h c l ≫= λ '(h1, c1), sendListener h1 c1 events.
Proof. reflexivity. Qed.

Lemma sendListener_timeout (events : list Event) h (c : APNSConnection) :
  sendListener h c (Timeout :: events)
  = flushBufferToSocket c ≫= λ c1, sendListener h c1 events.
Proof. reflexivity. Qed.

(** A run that is still listening after [events] took one step of [submit]
    or [flushBufferToSocket] for the first of them. *)
Lemma sendListener_listening_cons (ev : Event) (events : list Event) h
    (c : APNSConnection) h' (c' : APNSConnection) :
  sendListener h c (ev :: events) = Some (Listening h' c') →
  (∃ l h1 c1, ev = Submit (Some l) ∧ submit h c l = Some (h1, c1)
              ∧ sendListener h1 c1 events = Some (Listening h' c'))
  ∨ (∃ c1, ev = Timeout ∧ flushBufferToSocket c = Some c1
           ∧ sendListener h c1 events = Some (Listening h' c')).
Proof.
  destruct ev as [[l|] | | appleError]; try done.
  - rewrite sendListener_submit.
    destruct (submit h c l) as [[h1 c1]|] eqn:Hsubmit;
      cbn [mbind option_bind]; [|done].
    intros Hrun. left. by exists l, h1, c1.
  - rewrite sendListener_timeout.
    destruct (flushBufferToSocket c) as [c1|] eqn:Hflush;
      cbn [mbind option_bind]; [|done].
    intros Hrun. right. by exists c1.
Qed.

(** A run that is still listening goes on with the events that follow. *)
Lemma sendListener_app (events rest : list Event) h (c : APNSConnection)
    h' (c' : APNSConnection) :
  sendListener h c events = Some (Listening h' c') →
  sendListener h c (events ++ rest) = sendListener h' c' rest.
Proof.
  revert h c. induction events as [|ev events IH]; intros h c Hrun.
  - by injection Hrun as -> ->.
  - apply sendListener_listening_cons in Hrun
      as [(l & h1 & c1 & -> & Hsubmit & Hrun) | (c1 & -> & Hflush & Hrun)].
    + rewrite <- app_comm_cons, sendListener_submit, Hsubmit. cbn. eauto.
    + rewrite <- app_comm_cons, sendListener_timeout, Hflush. cbn. eauto.
Qed.

(** Every outcome is reached through a run that was listening, and a close
    report is the one [connectionClose] builds there. *)
Lemma sendListener_prefix (events : list Event) h (c : APNSConnection)
    (o : Outcome) :
  sendListener h c events = Some o →
  ∃ before,
    sendListener h c before = Some (Listening (outcome_heap o) (outcome_conn o))
    ∧ match o with
      | Closed _ c' r => ∃ appleError, r = connectionClose c' appleError
      | _ => True
      end.
Proof.
  revert h c. induction events as [|ev events IH]; intros h c Hrun.
  - injection Hrun as <-. by exists [].
  - destruct ev as [[l|] | | appleError].
    + rewrite sendListener_submit in Hrun.
      destruct (submit h c l) as [[h1 c1]|] eqn:Hsubmit; cbn in Hrun; [|done].
      destruct (IH _ _ Hrun) as (before & Hbefore & Ho).
      exists (Submit (Some l) :: before).
      by rewrite sendListener_submit, Hsubmit.
    + injection Hrun as <-. by exists [].
    + rewrite sendListener_timeout in Hrun.
      destruct (flushBufferToSocket c) as [c1|] eqn:Hflush; cbn in Hrun; [|done].
      destruct (IH _ _ Hrun) as (before & Hbefore & Ho).
      exists (Timeout :: before).
      by rewrite sendListener_timeout, Hflush.
    + injection Hrun as <-. exists []. split; [done|]. by exists appleError.
Qed.

(** What holds of the payloads submitted so far, the heap and the connection,
    and is kept by a submission and by a flush, holds wherever the loop
    listens. *)
Lemma sendListener_invariant
    (P : list loc → gmap loc (Payload D) → APNSConnection → Prop) :
  (∀ ls h c l h1 c1,
     P ls h c → submit h c l = Some (h1, c1) → P (ls ++ [l]) h1 c1) →
  (∀ ls h c c1, P ls h c → flushBufferToSocket c = Some c1 → P ls h c1) →
  ∀ events ls h c h' c',
    sendListener h c events = Some (Listening h' c') →
    P ls h c → P (ls ++ submitted events) h' c'.
Proof.
  intros Hsubmit Hflush events.
  induction events as [|ev events IH]; intros ls h c h' c' Hrun HP.
  - injection Hrun as <- <-. by rewrite app_nil_r.
  - apply sendListener_listening_cons in Hrun
      as [(l & h1 & c1 & -> & Hs & Hrun) | (c1 & -> & Hf & Hrun)].
    + change (submitted (Submit (Some l) :: events)) with ([l] ++ submitted events).
      rewrite app_assoc. eapply IH; eauto.
    + change (submitted (Timeout :: events)) with (submitted events).
      eapply IH; eauto.
Qed.

(** With payloads that are allocated, a run of submissions and timer ticks
    does not panic: the loop is listening after it. *)
Lemma sendListener_total (events : list Event) h (c : APNSConnection) :
  Forall (λ ev, traffic ev = true) events →
  bufferOK c →
  (∀ l, l ∈ submitted events → is_Some (h !! l)) →
  ∃ h' c', sendListener h c events = Some (Listening h' c').
Proof.
  revert h c. induction events as [|ev events IH]; intros h c Htraffic Hok Halloc.
  - by eexists _, _.
  - apply Forall_cons in Htraffic as [Hev Htraffic].
    destruct ev as [[l|] | | appleError]; try done.
    + destruct (Halloc l) as [p Hp]; [by left|].
      destruct (submit_effect h c l p Hok Hp)
        as (h1 & c1 & p' & Hsubmit & Hok1 & -> & _).
      rewrite sendListener_submit, Hsubmit. cbn. apply IH; [done | done |].
      intros l' Hl'. apply lookup_insert_is_Some'. right.
      apply Halloc. by right.
    + destruct (flushBufferToSocket_total c Hok) as [c1 Hflush].
      rewrite sendListener_timeout, Hflush. cbn.
      apply IH; [done | by eapply bufferOK_flush | done].
Qed.

Lemma bufferOK_listening (events : list Event) h (c : APNSConnection)
    h' (c' : APNSConnection) :
  sendListener h c events = Some (Listening h' c') → bufferOK c → bufferOK c'.
Proof.
  intros Hrun Hok.
  refine (sendListener_invariant (λ _ _ c0, bufferOK c0) _ _
            events [] h c h' c' Hrun Hok).
  - intros _ h0 c0 l h1 c1 Hok0 Hsubmit.
    destruct (submit_allocated h0 c0 l) as [p Hp]; [by rewrite Hsubmit|].
    destruct (submit_effect h0 c0 l p Hok0 Hp) as (? & ? & ? & Hs & ? & _).
    congruence.
  - intros _ _ c0 c1. apply bufferOK_flush.
Qed.


(** ** The replay buffer *)

Lemma nextPayloadId_payloadIdOf (c : APNSConnection) (n : N) :
  payloadIdCounter c = payloadIdOf n →
  (nextPayloadId c).1 = payloadIdOf (N.succ n).
Proof.
  intros Hc. rewrite nextPayloadId_eq, payloadIdOf_succ, Hc. reflexivity.
Qed.

(** As long as no more payloads were submitted than the replay buffer
    holds, it holds them all, newest first, each with the id of its rank. *)
Lemma replay_listening (events : list Event) h (socket : NetConn)
    (bufferSize : Z) h' (c' : APNSConnection) :
  sendListener h (socketAPNSConnectionBufSize socket bufferSize) events
  = Some (Listening h' c') →
  bufferOK c'
  ∧ inFlightPayloadBufferSize c' = bufferSize
  ∧ payloadIdCounter c' = payloadIdOf (N.of_nat (length (submitted events)))
  ∧ (len (submitted events) <= bufferSize →
     inFlightPayloadBuffer c' = reverse (imap replayEntry (submitted events))).
Proof.
  intros Hrun.
  refine (sendListener_invariant
            (λ ls _ c,
               bufferOK c
               ∧ inFlightPayloadBufferSize c = bufferSize
               ∧ payloadIdCounter c = payloadIdOf (N.of_nat (length ls))
               ∧ (len ls <= bufferSize →
                  inFlightPayloadBuffer c = reverse (imap replayEntry ls)))
            _ _ events [] h _ h' c' Hrun _).
  - intros ls h0 c0 l h1 c1 (Hok & Hsize & Hcounter & Hreplay) Hsubmit.
    destruct (submit_allocated h0 c0 l) as [p Hp]; [by rewrite Hsubmit|].
    destruct (submit_effect h0 c0 l p Hok Hp)
      as (h2 & c2 & p' & Hs & Hok2 & _ & _ & Hsize2 & Hcounter2 & Hreplay2 & _).
    rewrite Hsubmit in Hs. injection Hs as <- <-.
    rewrite (nextPayloadId_payloadIdOf c0 _ Hcounter) in Hcounter2, Hreplay2.
    rewrite length_app, Nat.add_1_r, Nat2N.inj_succ.
    split; [done|]. split; [congruence|]. split; [done|].
    unfold len. rewrite length_app, Nat.add_1_r. intros Hfits.
    rewrite Hreplay2, Hreplay by (unfold len; lia). cbv zeta.
    unfold len. cbn [length]. rewrite length_reverse, length_imap, Hsize.
    destruct (Z.gtb_spec (Z.of_nat (S (length ls))) bufferSize); [lia|].
    rewrite imap_app. cbn [imap]. rewrite reverse_snoc. unfold replayEntry.
    by rewrite Nat.add_0_r, Nat2N.inj_succ.
  - intros ls h0 c0 c1 (Hok & Hsize & Hcounter & Hreplay) Hflush.
    split; [by eapply bufferOK_flush|].
    apply flushBufferToSocket_effect in Hflush as (-> & -> & _ & -> & _).
    done.
  - split; [apply bufferOK_new|]. done.
Qed.

(** ** Gathering the unsent payloads *)

Lemma gatherUnsent_skip (appleError : AppleError) (entries rest : list idPayload)
    (unsentPayloads : list loc) :
  Forall (λ e, MessageId appleError = 0 ∨ ip_Id e ≠ MessageId appleError)
    entries →
  gatherUnsent appleError (entries ++ rest) unsentPayloads
  = gatherUnsent appleError rest
      (reverse (ip_Payload <$> entries) ++ unsentPayloads).
Proof.
  revert unsentPayloads.
  induction entries as [|e entries IH]; intros unsentPayloads Hskip; [done|].
  apply Forall_cons in Hskip as [He Hskip]. cbn [app gatherUnsent].
  assert (negb (MessageId appleError =? 0)
          && (ip_Id e =? MessageId appleError) = false) as ->.
  { destruct (Z.eqb_spec (MessageId appleError) 0),
      (Z.eqb_spec (ip_Id e) (MessageId appleError)); try done.
    by destruct He. }
  rewrite IH by done. cbn [fmap list_fmap].
  by rewrite reverse_cons, <- app_assoc.
Qed.

Lemma gatherUnsent_hit (appleError : AppleError) (e : idPayload)
    (rest : list idPayload) (unsentPayloads : list loc) :
  MessageId appleError ≠ 0 →
  ip_Id e = MessageId appleError →
  gatherUnsent appleError (e :: rest) unsentPayloads
  = (unsentPayloads, Some (ip_Payload e)).
Proof.
  intros Hne Heq. cbn [gatherUnsent].
  destruct (Z.eqb_spec (MessageId appleError) 0),
    (Z.eqb_spec (ip_Id e) (MessageId appleError)); done.
Qed.

Lemma imap_replayEntry_payloads (f : nat → nat) (ls : list loc) :
  ip_Payload <$> imap (λ j, replayEntry (f j)) ls = ls.
Proof.
  revert f. induction ls as [|l ls IH]; intros f; [done|].
  cbn. f_equal. apply (IH (f ∘ S)).
Qed.

(** The flag of a close report says that payloads are reported unsent and
    no error payload was found. *)
Lemma connectionClose_overflow (c : APNSConnection) (appleError : AppleError) :
  UnsentPayloadBufferOverflow (connectionClose c appleError) = true
  ↔ UnsentPayloads (connectionClose c appleError) ≠ []
    ∧ ErrorPayload (connectionClose c appleError) = None.
Proof.
  unfold connectionClose.
  destruct (gatherUnsent appleError (inFlightPayloadBuffer c) [])
    as [unsentPayloads errorPayload].
  cbn. rewrite andb_true_iff, bool_decide_eq_true.
  destruct unsentPayloads; cbn; [|unfold len; cbn [length]].
  - split; [by intros [? _] | by intros [? _]].
  - split; intros [_ ?]; (split; [done || lia | done]).
Qed.

(** Two submissions of fewer than 2^32 have different ids. *)
Lemma replayEntry_ids_distinct (n j j' : nat) :
  Z.of_nat n < 2 ^ 32 → (j < j' < n)%nat →
  payloadIdOf (N.of_nat (S j')) ≠ payloadIdOf (N.of_nat (S j)).
Proof. intros Hn Hj. apply payloadIdOf_window; lia. Qed.

(** ** The close report *)

(** The report for an error that carries no id: everything retained is
    unsent, oldest first. *)
Lemma connectionClose_no_id (c : APNSConnection) (appleError : AppleError) :
  MessageId appleError = 0 →
  connectionClose c appleError
  = {| UnsentPayloads := reverse (ip_Payload <$> inFlightPayloadBuffer c);
       Error := appleError;
       ErrorPayload := None;
       UnsentPayloadBufferOverflow :=
         bool_decide (inFlightPayloadBuffer c ≠ []) |}.
Proof.
  intros Hid. unfold connectionClose.
  rewrite <- (app_nil_r (inFlightPayloadBuffer c)) at 1.
  rewrite gatherUnsent_skip by (apply Forall_forall; by left).
  cbn [gatherUnsent]. rewrite app_nil_r. f_equal.
  destruct (inFlightPayloadBuffer c) as [|e entries]; [done|].
  cbn [fmap list_fmap]. rewrite reverse_cons. unfold len.
  rewrite length_app. cbn [length].
  rewrite bool_decide_eq_true_2 by done. rewrite andb_true_r.
  apply Z.gtb_gt. lia.
Qed.

(** The report for the id of the [j]-th submission, when the replay buffer
    still holds all the submissions and no later one has that id. *)
Lemma connectionClose_reported (c : APNSConnection) (appleError : AppleError)
    (ls : list loc) (j : nat) l :
  inFlightPayloadBuffer c = reverse (imap replayEntry ls) →
  ls !! j = Some l →
  MessageId appleError = payloadIdOf (N.of_nat (S j)) →
  (∀ j', (j < j' < length ls)%nat →
         payloadIdOf (N.of_nat (S j')) ≠ MessageId appleError) →
  connectionClose c appleError
  = {| UnsentPayloads := drop (S j) ls;
       Error := appleError;
       ErrorPayload := Some l;
       UnsentPayloadBufferOverflow := false |}.
Proof.
  intros Hreplay Hl Hid Hlast. unfold connectionClose. rewrite Hreplay.
  pose proof (lookup_lt_Some _ _ _ Hl) as Hj.
  rewrite <- (take_drop_middle ls j l Hl) at 1.
  rewrite imap_app, imap_cons, reverse_app, reverse_cons, <- app_assoc.
  rewrite length_take_le by lia.
  rewrite gatherUnsent_skip.
  - cbn [app]. rewrite gatherUnsent_hit.
    + rewrite <- fmap_reverse, reverse_involutive, app_nil_r.
      rewrite (imap_replayEntry_payloads (λ n, (j + S n)%nat)).
      cbn. by rewrite andb_false_r.
    + rewrite Hid. pose proof (payloadIdOf_range (N.of_nat (S j))). lia.
    + cbn. by rewrite Nat.add_0_r.
  - apply Forall_reverse, Forall_lookup. intros i e He. right.
    rewrite list_lookup_imap in He.
    destruct (drop (S j) ls !! i) as [l'|] eqn:Hl'; [|done].
    injection He as <-. cbn.
    apply lookup_lt_Some in Hl'. rewrite length_drop in Hl'.
    apply Hlast. lia.
Qed.

(** Among the first [n] submissions, the last one that got the id of the
    [j0]-th; below 2^32 submissions it is the [j0]-th itself. *)
Lemma last_submission_with_id (n j0 : nat) :
  (j0 < n)%nat →
  ∃ j, (j0 <= j < n)%nat
       ∧ payloadIdOf (N.of_nat (S j)) = payloadIdOf (N.of_nat (S j0))
       ∧ (∀ j', (j < j' < n)%nat →
                payloadIdOf (N.of_nat (S j')) ≠ payloadIdOf (N.of_nat (S j0)))
       ∧ (Z.of_nat n < 2 ^ 32 → j = j0).
Proof.
  induction n as [|n IH]; intros Hj0; [lia|].
  destruct (decide (payloadIdOf (N.of_nat (S n)) = payloadIdOf (N.of_nat (S j0))))
    as [Hsame | Hother].
  - exists n. split; [lia|]. split; [done|]. split; [intros j'; lia|].
    intros Hsmall. destruct (decide (n = j0)) as [|Hne]; [done|].
    by destruct (replayEntry_ids_distinct (S n) j0 n Hsmall ltac:(lia)).
  - assert (j0 ≠ n) as Hne by (intros ->; done).
    destruct (IH ltac:(lia)) as (j & Hj & Hid & Hlast & Hsmall).
    exists j. split; [lia|]. split; [done|]. split; [|intros; apply Hsmall; lia].
    intros j' Hj'. destruct (decide (j' = n)) as [-> | ?]; [done|].
    apply Hlast. lia.
Qed.

(** C3: when no more payloads were submitted than the replay buffer holds
    and the error carries an id that was given to a submission,
    [ErrorPayload] is the payload submitted with that id, and
    [UnsentPayloads] is the list of the payloads submitted after it, oldest
    first.  The submission with that id is the one the id was given to; only
    once the counter has wrapped, after 2^32 - 1 submissions, can it be a
    later one with the same id. *)
Theorem unsent_after_reported_id h (socket : NetConn) (bufferSize : Z)
    (events : list Event) (appleError : AppleError) (j0 : nat) :
  Forall (λ ev, traffic ev = true) events →
  Forall (λ l, is_Some (h !! l)) (submitted events) →
  len (submitted events) <= bufferSize →
  (j0 < length (submitted events))%nat →
  MessageId appleError = payloadIdOf (N.of_nat (S j0)) →
  ∃ h' c' j l,
    sendListener h (socketAPNSConnectionBufSize socket bufferSize)
      (events ++ [ErrClose appleError])
    = Some (Closed h' c'
              {| UnsentPayloads := drop (S j) (submitted events);
                 Error := appleError;
                 ErrorPayload := Some l;
                 UnsentPayloadBufferOverflow := false |})
    ∧ inFlightPayloadBuffer c' = reverse (imap replayEntry (submitted events))
    ∧ submitted events !! j = Some l
    ∧ ip_Id (replayEntry j l) = MessageId appleError
    ∧ (len (submitted events) < 2 ^ 32 → j = j0).
Proof.
  intros Htraffic Halloc Hfits Hj0 Hid.
  destruct (sendListener_total events h
              (socketAPNSConnectionBufSize socket bufferSize))
    as (h' & c' & Hrun);
    [done | apply bufferOK_new | by apply Forall_forall |].
  apply replay_listening in Hrun as Hreplay.
  destruct Hreplay as (_ & _ & _ & Hreplay). specialize (Hreplay Hfits).
  destruct (last_submission_with_id _ j0 Hj0) as (j & Hj & Hsame & Hlast & Hsmall).
  destruct (lookup_lt_is_Some_2 (submitted events) j ltac:(lia)) as [l Hl].
  exists h', c', j, l.
  rewrite (sendListener_app _ _ _ _ _ _ Hrun). cbn [sendListener].
  rewrite (connectionClose_reported c' appleError (submitted events) j l);
    [| done | done | congruence | intros j' Hj'; rewrite Hid; by apply Hlast].
  split; [done|]. split; [done|]. split; [done|].
  split; [cbn; congruence | done].
Qed.

(** C1, as the code has it: the flag of a close report is set exactly when
    payloads are reported unsent and no error payload was found; nothing
    records whether an entry was dropped from the replay buffer.  When the
    read of the error listener fails and no more payloads were submitted than
    the replay buffer holds, the report has error code 10 and id 0, no error
    payload, all submitted payloads as unsent, oldest first, and the flag is
    set as soon as one payload was submitted. *)
Theorem overflow_flag_spec :
  (∀ h (c : APNSConnection) (events : list Event) h' (c' : APNSConnection)
     (r : ConnectionClose),
     sendListener h c events = Some (Closed h' c' r) →
     UnsentPayloadBufferOverflow r = true
     ↔ UnsentPayloads r ≠ [] ∧ ErrorPayload r = None)
  ∧ (∀ h (socket : NetConn) (bufferSize : Z) (events : list Event)
       (data : list Z) (msg : string),
       Forall (λ ev, traffic ev = true) events →
       Forall (λ l, is_Some (h !! l)) (submitted events) →
       len (submitted events) <= bufferSize →
       ∃ appleError h' c',
         closeListener (mkReadResult data (Some msg)) = Some appleError
         ∧ ErrorCode appleError = 10
         ∧ APPLE_PUSH_RESPONSES !! ErrorCode appleError = Some "SHUTDOWN"
         ∧ MessageId appleError = 0
         ∧ sendListener h (socketAPNSConnectionBufSize socket bufferSize)
             (events ++ [ErrClose appleError])
           = Some (Closed h' c'
                     {| UnsentPayloads := submitted events;
                        Error := appleError;
                        ErrorPayload := None;
                        UnsentPayloadBufferOverflow :=
                          bool_decide (submitted events ≠ []) |})).
Proof.
  split.
  - intros h c events h' c' r Hrun.
    apply sendListener_prefix in Hrun as (_ & _ & appleError & ->).
    apply connectionClose_overflow.
  - intros h socket bufferSize events data msg Htraffic Halloc Hfits.
    destruct (sendListener_total events h
                (socketAPNSConnectionBufSize socket bufferSize))
      as (h' & c' & Hrun);
      [done | apply bufferOK_new | by apply Forall_forall |].
    apply replay_listening in Hrun as Hreplay.
    destruct Hreplay as (_ & _ & _ & Hreplay). specialize (Hreplay Hfits).
    eexists _, h', c'. split; [apply closeListener_read_failure|].
    split; [done|]. split; [done|]. split; [done|].
    rewrite (sendListener_app _ _ _ _ _ _ Hrun). cbn [sendListener].
    rewrite connectionClose_no_id by done. rewrite Hreplay.
    rewrite <- fmap_reverse, reverse_involutive.
    rewrite (imap_replayEntry_payloads (λ n, n)).
    do 3 f_equal.
    destruct (submitted events) as [|l ls]; [done|].
    cbn [imap]. rewrite reverse_cons.
    rewrite !bool_decide_eq_true_2; [done | done |].
    intros Hnil. apply (f_equal length) in Hnil.
    rewrite length_app in Hnil. cbn in Hnil. lia.
Qed.

(** ** The replay buffer size *)

(** C10: [NewAPNSConnection] takes the socket and nothing else, and the
    connection it returns has a replay buffer size of 10000; the size stays
    10000 for as long as the connection runs, and the replay buffer never
    holds more than 10000 entries. *)
Theorem NewAPNSConnection_capacity (socket : NetConn) :
  NewAPNSConnection socket = socketAPNSConnectionBufSize socket 10000
  ∧ inFlightPayloadBufferSize (NewAPNSConnection socket) = 10000
  ∧ ∀ h (events : list Event) (o : Outcome),
      sendListener h (NewAPNSConnection socket) events = Some o →
      inFlightPayloadBufferSize (outcome_conn o) = 10000
      ∧ len (inFlightPayloadBuffer (outcome_conn o)) <= 10000.
Proof.
  split; [reflexivity|]. split; [reflexivity|].
  intros h events o Hrun.
  apply sendListener_prefix in Hrun as (before & Hrun & _).
  generalize dependent (outcome_conn o). generalize dependent (outcome_heap o).
  intros h' c' Hrun.
  refine (proj2 (sendListener_invariant
            (λ _ _ c,
               bufferOK c
               ∧ inFlightPayloadBufferSize c = 10000
               ∧ len (inFlightPayloadBuffer c) <= 10000)
            _ _ before [] h _ h' c' Hrun _)).
  - intros _ h0 c0 l h1 c1 (Hok & Hsize & Hlen) Hsubmit.
    destruct (submit_allocated h0 c0 l) as [p Hp]; [by rewrite Hsubmit|].
    destruct (submit_effect h0 c0 l p Hok Hp)
      as (h2 & c2 & p' & Hs & Hok2 & _ & _ & Hsize2 & _ & Hreplay2 & _).
    rewrite Hsubmit in Hs. injection Hs as <- <-.
    split; [done|]. split; [congruence|].
    rewrite Hreplay2, Hsize. cbv zeta.
    destruct (Z.gtb_spec
                (len ({| ip_Payload := l; ip_Id := (nextPayloadId c0).1 |}
                        :: inFlightPayloadBuffer c0)) 10000) as [Hover | Hle];
      [|done].
    unfold len in *. rewrite removelast_firstn_len, length_take.
    cbn [length] in *. lia.
  - intros _ h0 c0 c1 (Hok & Hsize & Hlen) Hflush.
    split; [by eapply bufferOK_flush|].
    apply flushBufferToSocket_effect in Hflush as (-> & -> & _). done.
  - split; [apply bufferOK_new|]. done.
Qed.

(** ** Frame sizes *)

Lemma itemBuffer_len p p' (Id : Z) (item : list Z) :
  itemBuffer p Id = Some (p', item) →
  ∃ token payloadBytes,
    DecodeString (Token p) = Some token
    ∧ marshalAlertBodyPayload p 256 = Some payloadBytes
    ∧ len item = 3 + len token + len payloadBytes + 4 + 4 + 1.
Proof.
  intros Hitem.
  destruct (DecodeString (Token p)) as [token|] eqn:Htoken;
    [|by rewrite (proj2 (itemBuffer_None p Id)) in Hitem; [|left]].
  destruct (marshalAlertBodyPayload p 256) as [payloadBytes|] eqn:Hbody;
    [|by rewrite (proj2 (itemBuffer_None p Id)) in Hitem; [|right]].
  rewrite (itemBuffer_Some p Id token payloadBytes) in Hitem by done.
  injection Hitem as _ <-. exists token, payloadBytes.
  split; [done|]. split; [done|].
  unfold len. cbn [app length putUint16 putUint32].
  rewrite !length_app. cbn [length]. lia.
Qed.

(** C4, as the code has it: when the byte buffer and the item together are
    longer than [TCP_FRAME_MAX], [bufferPayload] flushes the buffer and starts
    a new one with the five header bytes and the item under local id 0.  As
    long as every item fits a frame with its header (every token that
    decodes is short enough for a body of 256 bytes, the bound the
    marshaller is called with), neither the byte buffer nor any buffer
    written to the socket is longer than [TCP_FRAME_MAX]. *)
Theorem frames_within_TCP_FRAME_MAX :
  (∀ h (c : APNSConnection) (idPayloadObj : idPayload) p p' (item : list Z),
     bufferOK c →
     h !! ip_Payload idPayloadObj = Some p →
     itemBuffer p (ip_Id idPayloadObj) = Some (p', item) →
     TCP_FRAME_MAX < len (inFlightByteBuffer c) + len item →
     ∃ cf c',
       flushBufferToSocket c = Some cf
       ∧ bufferPayload h c idPayloadObj
         = Some (<[ip_Payload idPayloadObj := p']> h, c')
       ∧ socket c' = socket cf
       ∧ inFlightByteBuffer c' = [2; 0; 0; 0; 0] ++ <[0%nat := 0]> item
       ∧ inFlightId c' = 0)
  ∧ (∀ h (conn : NetConn) (bufferSize : Z) (events : list Event)
       (o : Outcome),
       (∀ p payloadBytes,
          marshalAlertBodyPayload p 256 = Some payloadBytes →
          len payloadBytes <= 256) →
       (∀ l p token,
          h !! l = Some p → DecodeString (Token p) = Some token →
          5 + (3 + len token + 256 + 4 + 4 + 1) <= TCP_FRAME_MAX) →
       Forall (λ frame, len frame <= TCP_FRAME_MAX) (conn_written conn) →
       sendListener h (socketAPNSConnectionBufSize conn bufferSize) events
       = Some o →
       len (inFlightByteBuffer (outcome_conn o)) <= TCP_FRAME_MAX
       ∧ Forall (λ frame, len frame <= TCP_FRAME_MAX)
           (conn_written (socket (outcome_conn o)))).
Proof.
  split.
  - intros h c idPayloadObj p p' item Hok Hp Hitem Hover.
    destruct (bufferPayload_encoded h c idPayloadObj p p' item Hok Hp Hitem)
      as (c' & frame & localId & Hbuffer & Hbytes & Hid & _ & _ & _ & Hcases).
    destruct Hcases as [(_ & -> & -> & cf & Hflush & Hsocket)
                       | [(? & _) | (? & _)]]; [|lia..].
    by exists cf, c'.
  - intros h conn bufferSize events o Hmarshal Htokens Hwritten Hrun.
    apply sendListener_prefix in Hrun as (before & Hrun & _).
    generalize dependent (outcome_conn o).
    generalize dependent (outcome_heap o).
    intros h' c' Hrun.
    assert (∀ (A B C E : Prop), A ∧ B ∧ C ∧ E → B ∧ C) as Hproj by tauto.
    refine (Hproj _ _ _ _ (sendListener_invariant
              (λ _ h c,
                 bufferOK c
                 ∧ len (inFlightByteBuffer c) <= TCP_FRAME_MAX
                 ∧ Forall (λ frame, len frame <= TCP_FRAME_MAX)
                     (conn_written (socket c))
                 ∧ ∀ l p token,
                     h !! l = Some p → DecodeString (Token p) = Some token →
                     5 + (3 + len token + 256 + 4 + 4 + 1) <= TCP_FRAME_MAX)
              _ _ before [] h _ h' c' Hrun _)).
    + intros _ h0 c0 l h1 c1 (Hok & Hlen & Hframes & Hfit) Hsubmit.
      destruct (submit_allocated h0 c0 l) as [p Hp]; [by rewrite Hsubmit|].
      destruct (submit_effect h0 c0 l p Hok Hp)
        as (h2 & c2 & p' & Hs & Hok2 & Hheap & Htoken & _ & _ & _ & Hsizes).
      rewrite Hsubmit in Hs. injection Hs as <- <-.
      split; [done|].
      destruct Hsizes as [Hlen1 Hframes1]; [|done|done|].
      { intros p1 item Hitem.
        apply itemBuffer_len in Hitem
          as (token & payloadBytes & Hdecode & Hbody & ->).
        specialize (Hfit _ _ _ Hp Hdecode).
        specialize (Hmarshal _ _ Hbody). lia. }
      split; [done|]. split; [done|].
      intros l0 p0 token Hp0 Hdecode. subst h1.
      destruct (decide (l0 = l)) as [-> | Hne].
      * rewrite lookup_insert_eq in Hp0. injection Hp0 as <-.
        rewrite Htoken in Hdecode. eauto.
      * rewrite lookup_insert_ne in Hp0 by done. eauto.
    + intros _ h0 c0 c1 (Hok & Hlen & Hframes & Hfit) Hflush.
      split; [by eapply bufferOK_flush|].
      apply flushBufferToSocket_effect in Hflush
        as (_ & _ & _ & _ & Hlen1 & Hwritten1).
      split; [by rewrite Hlen1|]. split; [|done].
      destruct Hwritten1 as [-> | ->]; [done|].
      apply Forall_app. split; [done|].
      apply Forall_singleton. by rewrite Hlen1.
    + split; [apply bufferOK_new|]. split; [done|]. split; [done|]. done.
Qed.

End SendLoop.

(** * The claims on examples *)

(** C1, the claim as written fails: one payload is submitted to a connection
    that holds 10000, the read of the error listener fails, and the report
    has the flag set although nothing was dropped from the replay buffer. *)
Lemma overflow_flag_without_eviction :
  len (submitted [Submit (Some 1%positive)])
    <= inFlightPayloadBufferSize (NewAPNSConnection exSocket)
  ∧ closeListener (mkReadResult [] (Some "EOF"))
    = Some {| MessageId := 0; ErrorCode := 10; ErrorString := "EOF" |}
  ∧ closeReport
      (sendListener exHeap (NewAPNSConnection exSocket)
         [Submit (Some 1%positive);
          ErrClose {| MessageId := 0; ErrorCode := 10; ErrorString := "EOF" |}])
    = Some {| UnsentPayloads := [1%positive];
              Error := {| MessageId := 0; ErrorCode := 10;
                          ErrorString := "EOF" |};
              ErrorPayload := None;
              UnsentPayloadBufferOverflow := true |}.
Proof. split; [|split]; vm_compute; done. Qed.

Lemma overflow_flag_spec_witness :
  Forall (λ ev, traffic ev = true) exEvents
  ∧ Forall (λ l, is_Some (exHeap !! l)) (submitted exEvents)
  ∧ len (submitted exEvents) <= 10000
  ∧ ∃ appleError h' c',
      closeListener (mkReadResult [] (Some "EOF")) = Some appleError
      ∧ ErrorCode appleError = 10
      ∧ APPLE_PUSH_RESPONSES !! ErrorCode appleError = Some "SHUTDOWN"
      ∧ MessageId appleError = 0
      ∧ sendListener exHeap (socketAPNSConnectionBufSize exSocket 10000)
          (exEvents ++ [ErrClose appleError])
        = Some (Closed h' c'
                  {| UnsentPayloads := submitted exEvents;
                     Error := appleError;
                     ErrorPayload := None;
                     UnsentPayloadBufferOverflow :=
                       bool_decide (submitted exEvents ≠ []) |}).
Proof.
  assert (Forall (λ ev, traffic ev = true) exEvents) as Htraffic
    by (repeat constructor).
  assert (Forall (λ l, is_Some (exHeap !! l)) (submitted exEvents)) as Halloc
    by (repeat constructor; vm_compute; eauto).
  assert (len (submitted exEvents) <= 10000) as Hfits by (vm_compute; discriminate).
  split; [done|]. split; [done|]. split; [done|].
  exact (proj2 overflow_flag_spec exHeap exSocket 10000 exEvents [] "EOF"
           Htraffic Halloc Hfits).
Defined.

(** C2, the claim as written fails: the code byte 9 is no key of the table,
    and the error carries 9 and the empty string. *)
Lemma closeListener_code_9 :
  APPLE_PUSH_RESPONSES !! 9 = None
  ∧ closeListener (mkReadResult [8; 9; 0; 0; 0; 7] None)
    = Some {| MessageId := 7; ErrorCode := 9; ErrorString := EmptyString |}
  ∧ {| MessageId := 7; ErrorCode := 9; ErrorString := EmptyString |}
    ≠ {| MessageId := 7; ErrorCode := 255; ErrorString := "UNKNOWN" |}.
Proof. split; [|split]; [vm_compute; done..|discriminate]. Qed.

Lemma closeListener_unlisted_code_witness :
  length [8; 9; 0; 0; 0; 7] = 6%nat
  ∧ [8; 9; 0; 0; 0; 7] !! 1%nat = Some 9
  ∧ 0 <= 9 < 256
  ∧ APPLE_PUSH_RESPONSES !! 9 = None
  ∧ ∃ messageId,
      Uint32 (drop 2 [8; 9; 0; 0; 0; 7]) = Some messageId
      ∧ closeListener (mkReadResult [8; 9; 0; 0; 0; 7] None)
        = Some {| MessageId := messageId; ErrorCode := 9;
                  ErrorString := EmptyString |}
      ∧ 9 ≠ 255.
Proof.
  split; [reflexivity|]. split; [reflexivity|]. split; [lia|].
  split; [reflexivity|].
  apply (closeListener_unlisted_code [8; 9; 0; 0; 0; 7] 9);
    [reflexivity | reflexivity | lia | reflexivity].
Defined.

Lemma unsent_after_reported_id_witness :
  Forall (λ ev, traffic ev = true) exEvents
  ∧ Forall (λ l, is_Some (exHeap !! l)) (submitted exEvents)
  ∧ len (submitted exEvents) <= 10000
  ∧ (1 < length (submitted exEvents))%nat
  ∧ payloadIdOf (N.of_nat 2) = 2
  ∧ ∃ h' c',
      sendListener exHeap (socketAPNSConnectionBufSize exSocket 10000)
        (exEvents ++ [ErrClose {| MessageId := 2; ErrorCode := 8;
                                  ErrorString := "INVALID_TOKEN" |}])
      = Some (Closed h' c'
                {| UnsentPayloads := [3%positive];
                   Error := {| MessageId := 2; ErrorCode := 8;
                               ErrorString := "INVALID_TOKEN" |};
                   ErrorPayload := Some 2%positive;
                   UnsentPayloadBufferOverflow := false |}).
Proof.
  assert (Forall (λ ev, traffic ev = true) exEvents) as Htraffic
    by (repeat constructor).
  assert (Forall (λ l, is_Some (exHeap !! l)) (submitted exEvents)) as Halloc
    by (repeat constructor; vm_compute; eauto).
  assert (len (submitted exEvents) <= 10000) as Hfits by (vm_compute; discriminate).
  assert (1 < length (submitted exEvents))%nat as Hj0 by (vm_compute; lia).
  split; [done|]. split; [done|]. split; [done|]. split; [done|].
  split; [reflexivity|].
  destruct (unsent_after_reported_id exHeap exSocket 10000 exEvents
              {| MessageId := 2; ErrorCode := 8; ErrorString := "INVALID_TOKEN" |}
              1 Htraffic Halloc Hfits Hj0 eq_refl)
    as (h' & c' & j & l & Hrun & _ & Hl & _ & Hsmall).
  rewrite Hsmall in Hrun, Hl by (vm_compute; reflexivity).
  injection Hl as <-. by exists h', c'.
Defined.

(** C4, the claim as written fails: a payload whose token decodes to 65536
    bytes is buffered whole, and the timer writes a frame of 65553 bytes. *)
Lemma huge_token_frame :
  len <$> framesWritten
            (sendListener hugeHeap (NewAPNSConnection exSocket)
               [Submit (Some 1%positive); Timeout])
  = [65553]
  ∧ TCP_FRAME_MAX < 65553.
Proof. split; [vm_compute; reflexivity | reflexivity]. Qed.

Lemma frames_within_TCP_FRAME_MAX_witness :
  (∀ (p : Payload (list Z)) payloadBytes,
     marshalAlertBodyPayload p 256 = Some payloadBytes →
     len payloadBytes <= 256)
  ∧ (∀ l p token,
       exHeap !! l = Some p → DecodeString (Token p) = Some token →
       5 + (3 + len token + 256 + 4 + 4 + 1) <= TCP_FRAME_MAX)
  ∧ Forall (λ frame, len frame <= TCP_FRAME_MAX) (conn_written exSocket)
  ∧ sendListener exHeap (socketAPNSConnectionBufSize exSocket 10000) exEvents
    = Some exOutcome
  ∧ len (inFlightByteBuffer (outcome_conn exOutcome)) <= TCP_FRAME_MAX
  ∧ Forall (λ frame, len frame <= TCP_FRAME_MAX)
      (conn_written (socket (outcome_conn exOutcome))).
Proof.
  assert (∀ (p : Payload (list Z)) payloadBytes,
            marshalAlertBodyPayload p 256 = Some payloadBytes →
            len payloadBytes <= 256) as Hmarshal.
  { intros p payloadBytes. unfold marshalAlertBodyPayload, bytesMarshaller.
    destruct (Z.leb_spec (len (PayloadData p)) 256); [|done].
    intros Hsome. injection Hsome as Hsome. by subst payloadBytes. }
  assert (∀ l p token,
            exHeap !! l = Some p → DecodeString (Token p) = Some token →
            5 + (3 + len token + 256 + 4 + 4 + 1) <= TCP_FRAME_MAX) as Htokens.
  { intros l p token Hp Hdecode. unfold exHeap in Hp.
    rewrite !lookup_insert, lookup_empty in Hp.
    repeat case_decide; simplify_eq; vm_compute in Hdecode; simplify_eq;
      vm_compute; discriminate. }
  assert (Forall (λ frame, len frame <= TCP_FRAME_MAX) (conn_written exSocket))
    as Hwritten by constructor.
  assert (sendListener exHeap (socketAPNSConnectionBufSize exSocket 10000)
            exEvents = Some exOutcome) as Hrun by (vm_compute; reflexivity).
  split; [done|]. split; [done|]. split; [done|]. split; [done|].
  exact (proj2 frames_within_TCP_FRAME_MAX exHeap exSocket 10000 exEvents
           exOutcome Hmarshal Htokens Hwritten Hrun).
Defined.

(** C5, the claim as written fails: the token ab decodes to one byte; the
    length bytes of the item say 41, and 10 bytes follow them. *)
Lemma one_byte_token_item :
  DecodeString "ab" = Some [171]
  ∧ (inFlightByteBuffer ∘ snd)
      <$> bufferPayload exHeap (NewAPNSConnection exSocket)
            {| ip_Payload := 3%positive; ip_Id := 1 |}
    = Some ([2; 0; 0; 0; 0] ++ [0] ++ [0; 41]
              ++ [171; 0; 0; 0; 1; 0; 0; 0; 0; 5])
  ∧ len [171; 0; 0; 0; 1; 0; 0; 0; 0; 5] ≠ 0 * 256 + 41.
Proof. split; [|split]; [vm_compute; reflexivity..|discriminate]. Qed.

Lemma itemLength_matches_written_witness :
  bufferOK (NewAPNSConnection exSocket)
  ∧ exHeap !! 1%positive = Some (mkPayload exToken 7 10 [1; 2; 3])
  ∧ DecodeString exToken
    = Some [0; 1; 2; 3; 4; 5; 6; 7; 8; 9; 10; 11; 12; 13; 14; 15; 16; 17; 18;
            19; 20; 21; 22; 23; 24; 25; 26; 27; 28; 29; 30; 31]
  ∧ marshalAlertBodyPayload (mkPayload exToken 7 10 [1; 2; 3]) 256
    = Some [1; 2; 3]
  ∧ ∃ h' c' frame localId hi lo body,
      bufferPayload exHeap (NewAPNSConnection exSocket)
        {| ip_Payload := 1%positive; ip_Id := 1 |} = Some (h', c')
      ∧ inFlightByteBuffer c' = frame ++ [localId] ++ [hi; lo] ++ body
      ∧ 0 <= hi < 256 ∧ 0 <= lo < 256
      ∧ hi * 256 + lo = 32 + len [1; 2; 3] + 4 + 4 + 1
      ∧ body = [0; 1; 2; 3; 4; 5; 6; 7; 8; 9; 10; 11; 12; 13; 14; 15; 16; 17;
                18; 19; 20; 21; 22; 23; 24; 25; 26; 27; 28; 29; 30; 31]
                 ++ [1; 2; 3] ++ putUint32 1 ++ putUint32 7 ++ [wirePriority 10]
      ∧ len body = 32 + len [1; 2; 3] + 4 + 4 + 1.
Proof.
  split; [by left|]. split; [reflexivity|]. split; [reflexivity|].
  split; [reflexivity|].
  apply (itemLength_matches_written exHeap (NewAPNSConnection exSocket)
           {| ip_Payload := 1%positive; ip_Id := 1 |}
           (mkPayload exToken 7 10 [1; 2; 3]));
    [by left | reflexivity | reflexivity | reflexivity | reflexivity
    | vm_compute; reflexivity].
Defined.

Lemma payloadIds_spec_witness :
  (1 <= 5)%N
  ∧ 1 <= payloadIdOf 5 <= 2 ^ 32 - 1
  ∧ payloadIdOf 1 = 1
  ∧ (payloadIdOf 5 < 2 ^ 32 - 1 → payloadIdOf (5 + 1) = payloadIdOf 5 + 1)
  ∧ (payloadIdOf 5 = 2 ^ 32 - 1 → payloadIdOf (5 + 1) = 1)
  ∧ (∀ m, (5 < m)%N → (m < 5 + 4294967295)%N → payloadIdOf m ≠ payloadIdOf 5).
Proof. split; [lia|]. apply (payloadIds_spec 5). lia. Defined.

Lemma flushBufferToSocket_spec_witness :
  5 < len (inFlightByteBuffer (outcome_conn exOutcome))
  ∧ ∃ c' frame,
      flushBufferToSocket (outcome_conn exOutcome) = Some c'
      ∧ frame = take 1 (inFlightByteBuffer (outcome_conn exOutcome))
                  ++ putUint32 (uint32 (len (inFlightByteBuffer
                                               (outcome_conn exOutcome)) - 5))
                  ++ drop 5 (inFlightByteBuffer (outcome_conn exOutcome))
      ∧ inFlightByteBuffer c' = frame
      ∧ conn_written (socket c')
        = conn_written (socket (outcome_conn exOutcome)) ++ [frame].
Proof.
  assert (5 < len (inFlightByteBuffer (outcome_conn exOutcome))) as Hlen
    by (vm_compute; reflexivity).
  split; [done|].
  destruct (proj2 (flushBufferToSocket_spec (outcome_conn exOutcome)) Hlen)
    as (c' & frame & Hflush & Hframe & _ & Hbuffer & Hwritten & _).
  by exists c', frame.
Defined.

Lemma priority_byte_normalized_witness :
  bufferOK (NewAPNSConnection exSocket)
  ∧ exHeap !! 2%positive = Some (mkPayload exToken 0 7 [4])
  ∧ is_Some (DecodeString exToken)
  ∧ marshalAlertBodyPayload (mkPayload exToken 0 7 [4]) 256 = Some [4]
  ∧ ∃ h' c',
      bufferPayload exHeap (NewAPNSConnection exSocket)
        {| ip_Payload := 2%positive; ip_Id := 1 |} = Some (h', c')
      ∧ last (inFlightByteBuffer c') = Some 5.
Proof.
  split; [by left|]. split; [reflexivity|]. split; [vm_compute; eauto|].
  split; [reflexivity|].
  destruct (priority_byte_normalized exHeap (NewAPNSConnection exSocket)
              {| ip_Payload := 2%positive; ip_Id := 1 |}
              (mkPayload exToken 0 7 [4])
              [0; 1; 2; 3; 4; 5; 6; 7; 8; 9; 10; 11; 12; 13; 14; 15; 16; 17;
               18; 19; 20; 21; 22; 23; 24; 25; 26; 27; 28; 29; 30; 31] [4])
    as (h' & c' & Hbuffer & Hother & _);
    [by left | reflexivity | reflexivity | reflexivity |].
  exists h', c'. split; [done|]. apply Hother; discriminate.
Defined.

(** C9, the claim as written fails: a payload of priority 7 has priority 5
    on the heap once [bufferPayload] has encoded it. *)
Lemma bufferPayload_overwrites_priority :
  Priority <$> exHeap !! 2%positive = Some 7
  ∧ (λ hc, Priority <$> hc.1 !! 2%positive)
      <$> bufferPayload exHeap (NewAPNSConnection exSocket)
            {| ip_Payload := 2%positive; ip_Id := 1 |}
    = Some (Some 5).
Proof. split; vm_compute; reflexivity. Qed.

Lemma bufferPayload_heap_effect_witness :
  bufferOK (NewAPNSConnection exSocket)
  ∧ exHeap !! 2%positive = Some (mkPayload exToken 0 7 [4])
  ∧ ∃ h' c' p',
      bufferPayload exHeap (NewAPNSConnection exSocket)
        {| ip_Payload := 2%positive; ip_Id := 1 |} = Some (h', c')
      ∧ h' = <[2%positive := p']> exHeap
      ∧ Token p' = exToken
      ∧ ExpirationTime p' = 0
      ∧ PayloadData p' = [4].
Proof.
  split; [by left|]. split; [reflexivity|].
  destruct (bufferPayload_heap_effect exHeap (NewAPNSConnection exSocket)
              {| ip_Payload := 2%positive; ip_Id := 1 |}
              (mkPayload exToken 0 7 [4]))
    as (h' & c' & p' & Hbuffer & Hheap & Htoken & Hexp & Hdata & _);
    [by left | reflexivity |].
  by exists h', c', p'.
Defined.

Lemma NewAPNSConnection_capacity_witness :
  sendListener exHeap (NewAPNSConnection exSocket) exEvents = Some exOutcome
  ∧ inFlightPayloadBufferSize (outcome_conn exOutcome) = 10000
  ∧ len (inFlightPayloadBuffer (outcome_conn exOutcome)) <= 10000.
Proof.
  assert (sendListener exHeap (NewAPNSConnection exSocket) exEvents
          = Some exOutcome) as Hrun by (vm_compute; reflexivity).
  split; [done|].
  exact (proj2 (proj2 (NewAPNSConnection_capacity exSocket))
           exHeap exEvents exOutcome Hrun).
Defined.

(** * More of the connection *)

Section Retained.
Context {D : Type} {marshaller : Marshaller D}.
Implicit Types (h : gmap loc (Payload D)) (p : Payload D) (l : loc).
#[local] Arguments submit : simpl never.
#[local] Arguments flushBufferToSocket : simpl never.

(** Pushing an entry on a buffer cut to its size and dropping the last one
    when it has grown over the size is cutting after the push. *)
Lemma push_trim {A} (x : A) (entries : list A) (size : Z) :
  (if len (x :: take (Z.to_nat size) entries) >? size
   then removelast (x :: take (Z.to_nat size) entries)
   else x :: take (Z.to_nat size) entries)
  = take (Z.to_nat size) (x :: entries).
Proof.
  pose proof (length_take entries (Z.to_nat size)) as Hlen.
  destruct (Z.gtb_spec (len (x :: take (Z.to_nat size) entries)) size)
    as [Hover | Hfits]; unfold len in *; cbn [length] in *.
  - rewrite removelast_firstn_len. cbn [length Nat.pred].
    destruct (Z.to_nat size) as [|k] eqn:Hk; [done|].
    assert (length (take (S k) entries) = S k) as -> by lia.
    cbn [take]. by rewrite take_take, Nat.min_l by lia.
  - rewrite !take_ge; [done | cbn [length]; lia | lia].
Qed.

(** The replay buffer wherever the loop listens, whatever its size. *)
Lemma replay_listening_any (events : list Event) h (socket : NetConn)
    (bufferSize : Z) h' (c' : APNSConnection) :
  sendListener h (socketAPNSConnectionBufSize socket bufferSize) events
  = Some (Listening h' c') →
  inFlightPayloadBuffer c'
  = take (Z.to_nat bufferSize) (reverse (imap replayEntry (submitted events)))
  ∧ payloadIdCounter c' = payloadIdOf (N.of_nat (length (submitted events)))
  ∧ inFlightPayloadBufferSize c' = bufferSize.
Proof.
  intros Hrun.
  assert (∀ (A B C E : Prop), A ∧ B ∧ C ∧ E → B ∧ C ∧ E) as Hproj by tauto.
  refine (Hproj _ _ _ _ (sendListener_invariant
            (λ ls _ c,
               bufferOK c
               ∧ inFlightPayloadBuffer c
                 = take (Z.to_nat bufferSize) (reverse (imap replayEntry ls))
               ∧ payloadIdCounter c = payloadIdOf (N.of_nat (length ls))
               ∧ inFlightPayloadBufferSize c = bufferSize)
            _ _ events [] h _ h' c' Hrun _)).
  - intros ls h0 c0 l h1 c1 (Hok & Hreplay & Hcounter & Hsize) Hsubmit.
    destruct (submit_allocated h0 c0 l) as [p Hp]; [by rewrite Hsubmit|].
    destruct (submit_effect h0 c0 l p Hok Hp)
      as (h2 & c2 & p' & Hs & Hok2 & _ & _ & Hsize2 & Hcounter2 & Hreplay2 & _).
    rewrite Hsubmit in Hs. injection Hs as <- <-.
    rewrite (nextPayloadId_payloadIdOf c0 _ Hcounter) in Hcounter2, Hreplay2.
    rewrite length_app, Nat.add_1_r, Nat2N.inj_succ.
    split; [done|]. split; [|split; [done | congruence]].
    rewrite Hreplay2, Hreplay, Hsize. cbv zeta. rewrite push_trim.
    rewrite imap_app. cbn [imap]. rewrite reverse_snoc. unfold replayEntry.
    by rewrite Nat.add_0_r, Nat2N.inj_succ.
  - intros ls h0 c0 c1 (Hok & Hreplay & Hcounter & Hsize) Hflush.
    split; [by eapply bufferOK_flush|].
    apply flushBufferToSocket_effect in Hflush as (-> & -> & _ & -> & _).
    done.
  - split; [apply bufferOK_new|]. cbn. by rewrite take_nil.
Qed.

(** X1: however many payloads are submitted, the replay buffer holds the
    newest ones, as many as its size allows (none for a size of zero or
    less), newest first, each with the id of its rank; every submission takes
    an id. *)
Theorem replay_retains_newest (events : list Event) h (socket : NetConn)
    (bufferSize : Z) :
  Forall (λ ev, traffic ev = true) events →
  Forall (λ l, is_Some (h !! l)) (submitted events) →
  ∃ h' c',
    sendListener h (socketAPNSConnectionBufSize socket bufferSize) events
    = Some (Listening h' c')
    ∧ inFlightPayloadBuffer c'
      = take (Z.to_nat bufferSize)
          (reverse (imap replayEntry (submitted events)))
    ∧ length (inFlightPayloadBuffer c')
      = Nat.min (Z.to_nat bufferSize) (length (submitted events))
    ∧ payloadIdCounter c'
      = payloadIdOf (N.of_nat (length (submitted events))).
Proof.
  intros Htraffic Halloc.
  destruct (sendListener_total events h
              (socketAPNSConnectionBufSize socket bufferSize))
    as (h' & c' & Hrun);
    [done | apply bufferOK_new | by apply Forall_forall |].
  destruct (replay_listening_any _ _ _ _ _ _ Hrun) as (Hreplay & Hcounter & _).
  exists h', c'. split; [done|]. split; [done|]. split; [|done].
  by rewrite Hreplay, length_take, length_reverse, length_imap.
Qed.

(** Below the wrap the id of the [n]-th submission is [n]. *)
Lemma payloadIdOf_small (n : N) :
  (1 <= n)%N → Z.of_N n < 2 ^ 32 → payloadIdOf n = Z.of_N n.
Proof.
  intros Hn Hsmall. rewrite payloadIdOf_closed.
  destruct (N.eqb_spec n 0) as [|_]; [lia|].
  rewrite Z.mod_small; lia.
Qed.

(** The report when no retained entry has the id of the error: everything
    retained is unsent, oldest first, and the flag is set unless nothing is
    retained. *)
Lemma connectionClose_unmatched (c : APNSConnection) (appleError : AppleError) :
  Forall (λ e, MessageId appleError = 0 ∨ ip_Id e ≠ MessageId appleError)
    (inFlightPayloadBuffer c) →
  connectionClose c appleError
  = {| UnsentPayloads := reverse (ip_Payload <$> inFlightPayloadBuffer c);
       Error := appleError;
       ErrorPayload := None;
       UnsentPayloadBufferOverflow :=
         bool_decide (inFlightPayloadBuffer c ≠ []) |}.
Proof.
  intros Hskip. unfold connectionClose.
  rewrite <- (app_nil_r (inFlightPayloadBuffer c)) at 1.
  rewrite gatherUnsent_skip by done.
  cbn [gatherUnsent]. rewrite app_nil_r. f_equal.
  destruct (inFlightPayloadBuffer c) as [|e entries]; [done|].
  cbn [fmap list_fmap]. rewrite reverse_cons. unfold len.
  rewrite length_app. cbn [length].
  rewrite bool_decide_eq_true_2 by done. rewrite andb_true_r.
  apply Z.gtb_gt. lia.
Qed.


(** X3: when nothing was dropped from the replay buffer and the error
    carries an id that no submission was given (one above the number of
    submissions), no error payload is found, every submitted payload is
    reported unsent, and the flag is set as soon as one payload was
    submitted. *)
Theorem unassigned_id_reports_all (events : list Event) h (socket : NetConn)
    (bufferSize : Z) (appleError : AppleError) :
  Forall (λ ev, traffic ev = true) events →
  Forall (λ l, is_Some (h !! l)) (submitted events) →
  len (submitted events) <= bufferSize →
  len (submitted events) < MessageId appleError < 2 ^ 32 →
  ∃ h' c',
    sendListener h (socketAPNSConnectionBufSize socket bufferSize)
      (events ++ [ErrClose appleError])
    = Some (Closed h' c'
              {| UnsentPayloads := submitted events;
                 Error := appleError;
                 ErrorPayload := None;
                 UnsentPayloadBufferOverflow :=
                   bool_decide (submitted events ≠ []) |}).
Proof.
  intros Htraffic Halloc Hfits Hid. unfold len in *.
  destruct (sendListener_total events h
              (socketAPNSConnectionBufSize socket bufferSize))
    as (h' & c' & Hrun);
    [done | apply bufferOK_new | by apply Forall_forall |].
  destruct (replay_listening_any _ _ _ _ _ _ Hrun) as (Hreplay & _).
  exists h', c'.
  rewrite (sendListener_app _ _ _ _ _ _ Hrun). cbn [sendListener].
  rewrite take_ge in Hreplay by (rewrite length_reverse, length_imap; lia).
  rewrite connectionClose_unmatched.
  - rewrite Hreplay, <- fmap_reverse, reverse_involutive.
    rewrite (imap_replayEntry_payloads (λ n, n)).
    do 3 f_equal.
    destruct (submitted events) as [|l ls]; [done|].
    cbn [imap]. rewrite reverse_cons.
    rewrite !bool_decide_eq_true_2; [done | done |].
    intros Hnil. apply (f_equal length) in Hnil.
    rewrite length_app in Hnil. cbn in Hnil. lia.
  - rewrite Hreplay. apply Forall_reverse, Forall_lookup. intros i e He. right.
    rewrite list_lookup_imap in He.
    destruct (submitted events !! i) as [l|] eqn:Hl; [|done].
    injection He as <-. apply lookup_lt_Some in Hl. cbn.
    rewrite payloadIdOf_small; lia.
Qed.

(** What the gathering loop hands back, read against the entries it went
    through. *)
Lemma gatherUnsent_partition (appleError : AppleError) (entries : list idPayload)
    (unsentPayloads unsent : list loc) (errorPayload : option loc) :
  gatherUnsent appleError entries unsentPayloads = (unsent, errorPayload) →
  ∃ older,
    reverse (ip_Payload <$> entries) ++ unsentPayloads
    = older ++ option_list errorPayload ++ unsent
    ∧ (errorPayload = None → older = []).
Proof.
  revert unsentPayloads.
  induction entries as [|e entries IH]; intros unsentPayloads Hgather.
  - injection Hgather as <- <-. by exists [].
  - cbn [gatherUnsent] in Hgather. cbn [fmap list_fmap].
    rewrite reverse_cons, <- app_assoc.
    destruct (negb (MessageId appleError =? 0)
              && (ip_Id e =? MessageId appleError)).
    + injection Hgather as <- <-. by exists (reverse (ip_Payload <$> entries)).
    + by apply IH.
Qed.

(** X4: a close report splits the payloads of the replay buffer, read oldest
    first, in three: those up to the error payload, which it does not report,
    the error payload if one was found, and the unsent ones; nothing else is
    reported, and when no error payload was found everything retained is
    unsent. *)
Theorem closeReport_partition (events : list Event) h (c : APNSConnection)
    h' (c' : APNSConnection) (r : ConnectionClose) :
  sendListener h c events = Some (Closed h' c' r) →
  ∃ older,
    reverse (ip_Payload <$> inFlightPayloadBuffer c')
    = older ++ option_list (ErrorPayload r) ++ UnsentPayloads r
    ∧ (ErrorPayload r = None → older = []).
Proof.
  intros Hrun.
  apply sendListener_prefix in Hrun as (_ & _ & appleError & ->).
  unfold connectionClose.
  destruct (gatherUnsent appleError (inFlightPayloadBuffer c') [])
    as [unsent errorPayload] eqn:Hgather.
  apply gatherUnsent_partition in Hgather as (older & Hsplit & Hnone).
  rewrite app_nil_r in Hsplit. by exists older.
Qed.

(** X5: the first error ends the loop: whatever is sent or fires after it
    changes neither the report nor the connection. *)
Theorem events_after_error_ignored (before rest : list Event)
    (appleError : AppleError) h (c : APNSConnection) :
  sendListener h c (before ++ ErrClose appleError :: rest)
  = sendListener h c (before ++ [ErrClose appleError]).
Proof.
  revert h c. induction before as [|ev before IH]; intros h c; [done|].
  destruct ev as [[l|] | | appleError']; cbn [app]; try done.
  - rewrite !sendListener_submit.
    destruct (submit h c l) as [[h1 c1]|]; cbn [mbind option_bind]; [apply IH | done].
  - rewrite !sendListener_timeout.
    destruct (flushBufferToSocket c) as [c1|]; cbn [mbind option_bind];
      [apply IH | done].
Qed.

(** X6: when a nil payload arrives (the send channel was closed), the loop
    returns from where it stands: no close report is made, and what follows,
    an error included, is not looked at. *)
Theorem nil_payload_returns (before rest : list Event) h (c : APNSConnection) :
  Forall (λ ev, traffic ev = true) before →
  bufferOK c →
  Forall (λ l, is_Some (h !! l)) (submitted before) →
  ∃ h' c',
    sendListener h c before = Some (Listening h' c')
    ∧ sendListener h c (before ++ Submit None :: rest) = Some (Returned h' c')
    ∧ closeReport (sendListener h c (before ++ Submit None :: rest)) = None.
Proof.
  intros Htraffic Hok Halloc.
  destruct (sendListener_total before h c)
    as (h' & c' & Hrun); [done | done | by apply Forall_forall |].
  exists h', c'. split; [done|].
  by rewrite (sendListener_app _ _ _ _ _ _ Hrun).
Qed.

End Retained.

(** ** Error responses *)

Section Responses.
Context {D : Type} {marshaller : Marshaller D}.
Implicit Types (h : gmap loc (Payload D)) (p : Payload D) (l : loc).

(** A response that carries the big-endian bytes of an id. *)
Lemma closeListener_putUint32 (command code id : Z) :
  0 <= code < 256 → 0 <= id < 2 ^ 32 →
  closeListener (mkReadResult ([command; code] ++ putUint32 id) None)
  = Some {| MessageId := id; ErrorCode := code;
            ErrorString := mapIndex APPLE_PUSH_RESPONSES code |}.
Proof.
  intros Hcode Hid.
  pose proof (Uint32_putUint32 id [] Hid) as Hread.
  unfold putUint32 in *. cbn [app] in *.
  rewrite closeListener_read_ok, (uint8_small code) by done.
  cbn [Uint32] in Hread. injection Hread as ->. done.
Qed.

(** X7: the four id bytes that [bufferPayload] writes into an item, when
    they come back in a response, are read by [closeListener] as the id the
    item was encoded with. *)
Theorem item_id_read_back h (c : APNSConnection) (idPayloadObj : idPayload)
    p (token payloadBytes : list Z) (command code : Z) :
  bufferOK c →
  h !! ip_Payload idPayloadObj = Some p →
  DecodeString (Token p) = Some token →
  marshalAlertBodyPayload p 256 = Some payloadBytes →
  0 <= ip_Id idPayloadObj < 2 ^ 32 →
  0 <= code < 256 →
  ∃ h' c' before idBytes after appleError,
    bufferPayload h c idPayloadObj = Some (h', c')
    ∧ inFlightByteBuffer c' = before ++ idBytes ++ after
    ∧ length idBytes = 4%nat ∧ length after = 5%nat
    ∧ closeListener (mkReadResult ([command; code] ++ idBytes) None)
      = Some appleError
    ∧ MessageId appleError = ip_Id idPayloadObj
    ∧ ErrorCode appleError = code.
Proof.
  intros Hok Hp Htoken Hbody Hid Hcode.
  pose proof (itemBuffer_Some p (ip_Id idPayloadObj) token payloadBytes
                Htoken Hbody) as Hitem.
  destruct (bufferPayload_encoded h c idPayloadObj p _ _ Hok Hp Hitem)
    as (c' & frame & localId & Hbuffer & Hbytes & _).
  eexists _, c',
    (frame ++ [localId]
       ++ putUint16 (uint16 (32 + len payloadBytes + 4 + 4 + 1))
       ++ token ++ payloadBytes),
    (putUint32 (ip_Id idPayloadObj)),
    (putUint32 (ExpirationTime p) ++ [wirePriority (Priority p)]), _.
  split; [exact Hbuffer|]. split.
  { rewrite Hbytes. cbn [app list_insert insert].
    by rewrite <- !app_assoc, <- app_comm_cons, <- !app_assoc. }
  split; [done|]. split; [done|].
  split; [by apply closeListener_putUint32|]. done.
Qed.

(** X8: a connection that still retains all its submissions, fewer than 2^32,
    gets a response with the id bytes of the [j0]-th of them: the close
    report names the payload of that submission as the error payload and the
    payloads submitted after it as unsent, with the flag not set. *)
Theorem echoed_id_names_payload (events : list Event) h (socket : NetConn)
    (bufferSize : Z) (command code : Z) (j0 : nat) l :
  Forall (λ ev, traffic ev = true) events →
  Forall (λ l, is_Some (h !! l)) (submitted events) →
  len (submitted events) <= bufferSize →
  len (submitted events) < 2 ^ 32 →
  submitted events !! j0 = Some l →
  0 <= code < 256 →
  ∃ appleError h' c',
    closeListener
      (mkReadResult ([command; code] ++ putUint32 (ip_Id (replayEntry j0 l)))
         None)
    = Some appleError
    ∧ ErrorCode appleError = code
    ∧ sendListener h (socketAPNSConnectionBufSize socket bufferSize)
        (events ++ [ErrClose appleError])
      = Some (Closed h' c'
                {| UnsentPayloads := drop (S j0) (submitted events);
                   Error := appleError;
                   ErrorPayload := Some l;
                   UnsentPayloadBufferOverflow := false |}).
Proof.
  intros Htraffic Halloc Hfits Hsmall Hl Hcode. unfold len in *.
  pose proof (lookup_lt_Some _ _ _ Hl) as Hj0.
  pose proof (payloadIdOf_range (N.of_nat (S j0)) ltac:(lia)) as Hrange.
  destruct (sendListener_total events h
              (socketAPNSConnectionBufSize socket bufferSize))
    as (h' & c' & Hrun);
    [done | apply bufferOK_new | by apply Forall_forall |].
  apply replay_listening in Hrun as Hreplay.
  destruct Hreplay as (_ & _ & _ & Hreplay).
  specialize (Hreplay ltac:(unfold len; lia)).
  eexists _, h', c'.
  split; [apply closeListener_putUint32; [done | cbn; lia]|].
  split; [done|].
  rewrite (sendListener_app _ _ _ _ _ _ Hrun). cbn [sendListener].
  rewrite (connectionClose_reported c' _ (submitted events) j0 l); try done.
  intros j' Hj'. cbn.
  apply (replayEntry_ids_distinct (length (submitted events))); lia.
Qed.

End Responses.

(** The keys of [APPLE_PUSH_RESPONSES] among the byte values, and their
    strings: none is empty. *)
Lemma APPLE_PUSH_RESPONSES_keys (code : Z) :
  0 <= code < 256 →
  (mapIndex APPLE_PUSH_RESPONSES code = EmptyString
   ↔ code ∉ [0; 1; 2; 3; 4; 5; 6; 7; 8; 10; 255])
  ∧ (APPLE_PUSH_RESPONSES !! code = None
     ↔ code ∉ [0; 1; 2; 3; 4; 5; 6; 7; 8; 10; 255]).
Proof.
  intros Hcode.
  assert (Forall (λ code,
            bool_decide (mapIndex APPLE_PUSH_RESPONSES code = EmptyString)
            = bool_decide (code ∉ [0; 1; 2; 3; 4; 5; 6; 7; 8; 10; 255])
            ∧ bool_decide (APPLE_PUSH_RESPONSES !! code = None)
              = bool_decide (code ∉ [0; 1; 2; 3; 4; 5; 6; 7; 8; 10; 255]))
            (seqZ 0 256)) as Hall.
  { apply (bool_decide_unpack _). vm_compute. exact I. }
  rewrite Forall_forall in Hall.
  destruct (Hall code) as [Hstring Hkey]; [apply elem_of_seqZ; lia|].
  split.
  - by rewrite <- (bool_decide_eq_true (mapIndex _ _ = _)), Hstring,
      bool_decide_eq_true.
  - by rewrite <- (bool_decide_eq_true (_ !! _ = None)), Hkey,
      bool_decide_eq_true.
Qed.

(** X9: for a response of six bytes, the error string is empty exactly when
    the code byte is none of 0 to 8, 10 and 255; for those it is the string
    of the table, and the code is passed on as it came in either case. *)
Theorem ErrorString_empty_iff_unlisted (data : list Z) (code : Z) :
  length data = 6%nat →
  data !! 1%nat = Some code →
  0 <= code < 256 →
  ∃ appleError,
    closeListener (mkReadResult data None) = Some appleError
    ∧ ErrorCode appleError = code
    ∧ (ErrorString appleError = EmptyString
       ↔ code ∉ [0; 1; 2; 3; 4; 5; 6; 7; 8; 10; 255])
    ∧ (code ∈ [0; 1; 2; 3; 4; 5; 6; 7; 8; 10; 255] →
       APPLE_PUSH_RESPONSES !! code = Some (ErrorString appleError)).
Proof.
  intros Hlen Hcode Hrange.
  destruct data as [|b0 [|b1 [|b2 [|b3 [|b4 [|b5 [|]]]]]]]; try discriminate.
  simpl in Hcode. injection Hcode as ->.
  eexists. split; [apply closeListener_read_ok|].
  cbn [ErrorCode ErrorString]. rewrite uint8_small by done.
  destruct (APPLE_PUSH_RESPONSES_keys code Hrange) as [Hstring Hkey].
  split; [done|]. split; [done|].
  intros Hin. unfold mapIndex.
  destruct (APPLE_PUSH_RESPONSES !! code) as [s|]; [done|].
  by destruct (proj1 Hkey eq_refl).
Qed.

(** ** Frames *)

Section Frames.
Context {D : Type} {marshaller : Marshaller D}.
Implicit Types (h : gmap loc (Payload D)) (p : Payload D) (l : loc).
#[local] Arguments submit : simpl never.
#[local] Arguments flushBufferToSocket : simpl never.

(** The two ways a flush ends. *)
Lemma flushBufferToSocket_cases (c c' : APNSConnection) :
  flushBufferToSocket c = Some c' →
  (c' = c
   ∧ (len (inFlightByteBuffer c) = 0 ∨ len (inFlightByteBuffer c) = 5))
  ∨ (5 < len (inFlightByteBuffer c)
     ∧ inFlightByteBuffer c'
       = take 1 (inFlightByteBuffer c)
           ++ putUint32 (uint32 (len (inFlightByteBuffer c) - 5))
           ++ drop 5 (inFlightByteBuffer c)
     ∧ socket c'
       = mkNetConn (conn_written (socket c) ++ [inFlightByteBuffer c'])
           (tail (conn_writeErrs (socket c)))
           (conn_closed (socket c) || nextWriteFails (socket c))).
Proof.
  intros Hflush. pose proof (len_nonneg (inFlightByteBuffer c)).
  destruct (decide (len (inFlightByteBuffer c) = 0 ∨ len (inFlightByteBuffer c) = 5)).
  - rewrite flushBufferToSocket_noop in Hflush by done.
    injection Hflush as <-. by left.
  - destruct (decide (len (inFlightByteBuffer c) < 5)).
    + rewrite flushBufferToSocket_short in Hflush by lia. discriminate.
    + rewrite flushBufferToSocket_long in Hflush by lia.
      injection Hflush as <-. right. split; [lia|]. done.
Qed.

(** The buffer with its length bytes set is a frame, of the same length and
    with the same bytes after the header. *)
Lemma patched_frameOK (b : list Z) :
  5 < len b → take 1 b = [2] →
  let frame := take 1 b ++ putUint32 (uint32 (len b - 5)) ++ drop 5 b in
  frameOK frame ∧ len frame = len b ∧ take 1 frame = [2]
  ∧ drop 5 frame = drop 5 b.
Proof.
  intros Hlen Hhead frame.
  assert (len frame = len b) as Hsame.
  { subst frame. unfold len in *.
    rewrite !length_app, length_take, length_putUint32, length_drop. lia. }
  subst frame. rewrite Hhead in *. unfold frameOK. rewrite Hsame.
  repeat split; done.
Qed.

(** [submit] is [bufferPayload] on a connection with the same byte buffer,
    local id and socket. *)
Lemma submit_bufferPayload h (c : APNSConnection) l :
  ∃ c2,
    submit h c l
    = bufferPayload h c2 {| ip_Payload := l; ip_Id := (nextPayloadId c).1 |}
    ∧ inFlightByteBuffer c2 = inFlightByteBuffer c
    ∧ inFlightId c2 = inFlightId c
    ∧ socket c2 = socket c.
Proof. rewrite submit_eq. cbv zeta. by eexists. Qed.

(** The byte buffer is empty or starts a frame, and what was written are
    frames: kept by a flush, ... *)
Lemma framing_flush (c c' : APNSConnection) :
  flushBufferToSocket c = Some c' →
  (inFlightByteBuffer c = []
   ∨ 5 < len (inFlightByteBuffer c) ∧ take 1 (inFlightByteBuffer c) = [2]) →
  Forall frameOK (conn_written (socket c)) →
  (inFlightByteBuffer c' = []
   ∨ 5 < len (inFlightByteBuffer c') ∧ take 1 (inFlightByteBuffer c') = [2])
  ∧ Forall frameOK (conn_written (socket c')).
Proof.
  intros Hflush Hbuf Hwritten.
  apply flushBufferToSocket_cases in Hflush
    as [[-> _] | (Hlen & Hbuf' & Hsocket')]; [done|].
  destruct Hbuf as [Hnil | [_ Hhead]];
    [rewrite Hnil in Hlen; unfold len in Hlen; simpl in Hlen; lia|].
  destruct (patched_frameOK _ Hlen Hhead) as (Hframe & Hsame & Hhead' & _).
  rewrite <- Hbuf' in Hframe, Hsame, Hhead'.
  split; [right; split; [lia | done]|].
  rewrite Hsocket'. cbn. apply Forall_app. split; [done|].
  by apply Forall_singleton.
Qed.

(** ... and by [bufferPayload]. *)
Lemma framing_bufferPayload h (c : APNSConnection) (idPayloadObj : idPayload)
    h' (c' : APNSConnection) :
  bufferPayload h c idPayloadObj = Some (h', c') →
  (inFlightByteBuffer c = []
   ∨ 5 < len (inFlightByteBuffer c) ∧ take 1 (inFlightByteBuffer c) = [2]) →
  Forall frameOK (conn_written (socket c)) →
  (inFlightByteBuffer c' = []
   ∨ 5 < len (inFlightByteBuffer c') ∧ take 1 (inFlightByteBuffer c') = [2])
  ∧ Forall frameOK (conn_written (socket c')).
Proof.
  intros Hbuffer Hbuf Hwritten.
  assert (bufferOK c) as Hok.
  { unfold bufferOK. destruct Hbuf as [-> | [? _]]; [by left | right; lia]. }
  destruct (h !! ip_Payload idPayloadObj) as [p|] eqn:Hp;
    [|unfold bufferPayload in Hbuffer; by rewrite Hp in Hbuffer].
  destruct (itemBuffer p (ip_Id idPayloadObj)) as [[p' item]|] eqn:Hitem.
  - destruct (bufferPayload_encoded h c idPayloadObj p p' item Hok Hp Hitem)
      as (c1 & frame & localId & Hb & Hbytes & _ & _ & _ & _ & Hcases).
    rewrite Hbuffer in Hb. injection Hb as _ <-.
    apply itemBuffer_payload in Hitem as [_ Hpos].
    assert (0 < len (<[0%nat := localId]> item)) as Hitem_len
      by (unfold len; rewrite length_insert; lia).
    rewrite Hbytes, len_app.
    destruct Hcases as [(_ & -> & _ & cf & Hflush & ->)
                       | [(_ & _ & -> & _ & ->) | (_ & Hne & -> & _ & ->)]].
    + split; [right; split; [unfold len at 1; simpl; lia | done]|].
      by destruct (framing_flush c cf Hflush Hbuf Hwritten).
    + split; [right; split; [unfold len at 1; simpl; lia | done]|]. done.
    + destruct Hbuf as [Hnil | [Hlen Hhead]];
        [by rewrite Hnil in Hne|].
      split; [|done]. right. split; [lia|].
      rewrite take_app_le; [done|]. unfold len in Hlen. lia.
  - destruct (bufferPayload_teardown h c idPayloadObj p Hok Hp Hitem)
      as (c1 & Hb & Hd & _).
    rewrite Hbuffer in Hb. injection Hb as _ <-.
    unfold Disconnect in Hd.
    destruct (flushBufferToSocket c) as [cf|] eqn:Hflush; [|done].
    injection Hd as <-. cbn.
    by destruct (framing_flush c cf Hflush Hbuf Hwritten).
Qed.

(** X10: every buffer the connection hands to the socket is a frame: it
    starts with the type byte 2, its next four bytes are the number of bytes
    after the header, big-endian, and at least one byte follows the header;
    a header alone is never written. *)
Theorem written_frames_well_formed h (conn : NetConn) (bufferSize : Z)
    (events : list Event) (o : Outcome) :
  Forall frameOK (conn_written conn) →
  sendListener h (socketAPNSConnectionBufSize conn bufferSize) events
  = Some o →
  Forall frameOK (conn_written (socket (outcome_conn o)))
  ∧ ∀ frame, frame ∈ conn_written (socket (outcome_conn o)) →
      head frame = Some 2
      ∧ Uint32 (drop 1 frame) = Some (uint32 (len frame - 5)).
Proof.
  intros Hwritten Hrun.
  apply sendListener_prefix in Hrun as (before & Hrun & _).
  generalize dependent (outcome_conn o). generalize dependent (outcome_heap o).
  intros h' c' Hrun.
  assert (Forall frameOK (conn_written (socket c'))) as Hframes.
  { refine (proj2 (sendListener_invariant
              (λ _ _ c,
                 (inFlightByteBuffer c = []
                  ∨ 5 < len (inFlightByteBuffer c)
                    ∧ take 1 (inFlightByteBuffer c) = [2])
                 ∧ Forall frameOK (conn_written (socket c)))
              _ _ before [] h _ h' c' Hrun _)).
    - intros _ h0 c0 l h1 c1 [Hbuf Hw] Hsubmit.
      destruct (submit_bufferPayload h0 c0 l) as (c2 & Heq & Hb2 & _ & Hs2).
      rewrite Heq in Hsubmit.
      apply (framing_bufferPayload _ _ _ _ _ Hsubmit); by rewrite ?Hb2, ?Hs2.
    - intros _ h0 c0 c1 [Hbuf Hw] Hflush. by eapply framing_flush.
    - split; [by left | done]. }
  split; [done|]. intros frame Hin.
  rewrite Forall_forall in Hframes. destruct (Hframes _ Hin) as [Hlen Hhead].
  assert (0 <= uint32 (len frame - 5) < 2 ^ 32) as Hrange
    by (unfold uint32; apply Z.mod_pos_bound; lia).
  remember (uint32 (len frame - 5)) as v eqn:Hv. clear Hv.
  assert (frame = [2] ++ putUint32 v ++ drop 5 frame) as ->.
  { rewrite <- (take_drop 5 frame) at 1. by rewrite Hhead, <- app_assoc. }
  split; [done|]. cbn [app drop]. by apply Uint32_putUint32.
Qed.

Lemma drop5_patched (b : list Z) (v : Z) :
  0 < len b → drop 5 (take 1 b ++ putUint32 v ++ drop 5 b) = drop 5 b.
Proof.
  intros Hlen. destruct b as [|b0 rest]; [unfold len in Hlen; simpl in Hlen; lia|].
  reflexivity.
Qed.

Lemma nextPayloadId_counter (c c' : APNSConnection) :
  payloadIdCounter c' = payloadIdCounter c →
  (nextPayloadId c').1 = (nextPayloadId c).1.
Proof. intros Hc. by rewrite !nextPayloadId_eq, Hc. Qed.

(** X11: a timer tick writes the byte buffer and leaves it in place.  The
    next payload that fits is appended to the bytes already written, with the
    next local id, and the following tick writes them all again, under a new
    frame length. *)
Theorem timer_flush_keeps_buffer h (c : APNSConnection) l p p'
    (item : list Z) :
  5 < len (inFlightByteBuffer c) →
  h !! l = Some p →
  itemBuffer p (nextPayloadId c).1 = Some (p', item) →
  len (inFlightByteBuffer c) + len item <= TCP_FRAME_MAX →
  ∃ h' c' frame1 frame2,
    sendListener h c [Timeout; Submit (Some l); Timeout]
    = Some (Listening h' c')
    ∧ conn_written (socket c')
      = conn_written (socket c) ++ [frame1; frame2]
    ∧ drop 5 frame1 = drop 5 (inFlightByteBuffer c)
    ∧ drop 5 frame2
      = drop 5 (inFlightByteBuffer c)
          ++ <[0%nat := uint8 (inFlightId c + 1)]> item
    ∧ inFlightByteBuffer c' = frame2.
Proof.
  intros Hlen Hp Hitem Hfits.
  pose proof (flushBufferToSocket_long c Hlen) as Hflush1. cbv zeta in Hflush1.
  set (frame1 := take 1 (inFlightByteBuffer c)
                   ++ putUint32 (uint32 (len (inFlightByteBuffer c) - 5))
                   ++ drop 5 (inFlightByteBuffer c)) in *.
  assert (len frame1 = len (inFlightByteBuffer c)) as Hlen1.
  { subst frame1. unfold len in *.
    rewrite !length_app, length_take, length_putUint32, length_drop. lia. }
  assert (drop 5 frame1 = drop 5 (inFlightByteBuffer c)) as Hdrop1
    by (apply drop5_patched; lia).
  set (c1 := mkAPNSConnection _ _ _ frame1 _ _) in Hflush1.
  rewrite sendListener_timeout, Hflush1. cbn [mbind option_bind].
  rewrite sendListener_submit.
  destruct (submit_bufferPayload h c1 l) as (c2 & -> & Hbuf2 & Hid2 & Hsock2).
  rewrite (nextPayloadId_counter c c1) by done.
  assert (bufferOK c2) as Hok2 by (unfold bufferOK; rewrite Hbuf2; cbn; lia).
  destruct (bufferPayload_encoded h c2
              {| ip_Payload := l; ip_Id := (nextPayloadId c).1 |}
              p p' item Hok2 Hp Hitem)
    as (c3 & frame & localId & -> & Hbytes & _ & _ & _ & _ & Hcases).
  rewrite Hbuf2 in Hcases. cbn [inFlightByteBuffer c1] in Hcases.
  destruct Hcases as [(? & _) | [(_ & ? & _) | (_ & _ & -> & -> & Hsock3)]];
    [lia | lia |].
  rewrite Hid2 in Hbytes. cbn [inFlightId c1] in Hbytes.
  cbn [mbind option_bind]. rewrite sendListener_timeout.
  assert (0 < len item) as Hitem_len.
  { apply itemBuffer_payload in Hitem as [_ Hpos]. unfold len. lia. }
  assert (5 < len (inFlightByteBuffer c3)) as Hlen3.
  { rewrite Hbytes, len_app. unfold len at 2. rewrite length_insert.
    fold (len item). lia. }
  pose proof (flushBufferToSocket_long c3 Hlen3) as Hflush3.
  cbv zeta in Hflush3. rewrite Hflush3. cbn [mbind option_bind sendListener].
  eexists _, _, frame1,
    (take 1 (inFlightByteBuffer c3)
       ++ putUint32 (uint32 (len (inFlightByteBuffer c3) - 5))
       ++ drop 5 (inFlightByteBuffer c3)).
  split; [reflexivity|].
  cbn [socket conn_written inFlightByteBuffer].
  rewrite Hsock3, Hsock2. subst c1. cbn [socket conn_written].
  split; [by rewrite <- app_assoc|]. split; [done|]. split; [|done].
  rewrite drop5_patched by lia. rewrite Hbytes.
  rewrite drop_app_le by (unfold len in *; lia). by rewrite Hdrop1.
Qed.

(** X12: [Disconnect] on a connection whose byte buffer holds a frame writes
    that frame once, with its length set, and closes the socket; with an
    empty buffer or a header alone it only closes the socket.  The replay
    buffer and the id counter are left as they are, and the byte buffer is
    not emptied. *)
Theorem Disconnect_spec (c : APNSConnection) :
  bufferOK c →
  ∃ c',
    Disconnect c = Some c'
    ∧ conn_closed (socket c') = true
    ∧ inFlightPayloadBuffer c' = inFlightPayloadBuffer c
    ∧ payloadIdCounter c' = payloadIdCounter c
    ∧ len (inFlightByteBuffer c') = len (inFlightByteBuffer c)
    ∧ drop 5 (inFlightByteBuffer c') = drop 5 (inFlightByteBuffer c)
    ∧ (len (inFlightByteBuffer c) <= 5 →
       conn_written (socket c') = conn_written (socket c))
    ∧ (5 < len (inFlightByteBuffer c) →
       conn_written (socket c')
       = conn_written (socket c)
           ++ [take 1 (inFlightByteBuffer c)
                 ++ putUint32 (uint32 (len (inFlightByteBuffer c) - 5))
                 ++ drop 5 (inFlightByteBuffer c)]).
Proof.
  intros Hok. unfold Disconnect.
  destruct (flushBufferToSocket_total c Hok) as [cf Hflush].
  rewrite Hflush. cbn [mbind option_bind].
  exists (noFlushDisconnect cf). split; [done|]. split; [done|].
  apply flushBufferToSocket_effect in Hflush as Heffect.
  destruct Heffect as (Hreplay & _ & _ & Hcounter & Hlen & _).
  split; [done|]. split; [done|]. split; [done|].
  apply flushBufferToSocket_cases in Hflush
    as [[-> Hshort] | (Hlong & Hbuf & Hsock)]; cbn.
  - split; [done|]. split; [done | lia].
  - rewrite Hsock, Hbuf. cbn.
    split; [apply drop5_patched; lia|]. split; [lia | done].
Qed.

(** X13: a payload whose token does not decode, or that does not marshal,
    takes an id and its place in the replay buffer like any other, but no
    byte of it reaches the byte buffer and the heap is left as it is: the
    pending frame, if any, is written and the socket closed. *)
Theorem submit_unencodable h (c : APNSConnection) l p :
  bufferOK c →
  h !! l = Some p →
  DecodeString (Token p) = None ∨ marshalAlertBodyPayload p 256 = None →
  ∃ c',
    submit h c l = Some (h, c')
    ∧ conn_closed (socket c') = true
    ∧ payloadIdCounter c' = (nextPayloadId c).1
    ∧ inFlightPayloadBuffer c'
      = (let entries := {| ip_Payload := l; ip_Id := (nextPayloadId c).1 |}
                          :: inFlightPayloadBuffer c in
         if len entries >? inFlightPayloadBufferSize c
         then removelast entries else entries)
    ∧ len (inFlightByteBuffer c') = len (inFlightByteBuffer c)
    ∧ inFlightId c' = inFlightId c
    ∧ (conn_written (socket c') = conn_written (socket c)
       ∨ conn_written (socket c')
         = conn_written (socket c) ++ [inFlightByteBuffer c']).
Proof.
  intros Hok Hp Hfail.
  apply (itemBuffer_None p (nextPayloadId c).1) in Hfail.
  rewrite submit_eq. cbv zeta.
  set (c2 := mkAPNSConnection _ _ _ _ _ _).
  assert (bufferOK c2) as Hok2 by done.
  destruct (bufferPayload_teardown h c2
              {| ip_Payload := l; ip_Id := (nextPayloadId c).1 |}
              p Hok2 Hp Hfail)
    as (c' & -> & Hd & Hclosed).
  exists c'. split; [done|]. split; [done|].
  apply Disconnect_effect in Hd
    as (Hreplay & _ & Hid & Hcounter & Hlen & Hwritten).
  by rewrite Hreplay, Hid, Hcounter, Hlen.
Qed.

End Frames.

(** ** Payloads on the heap *)

Section Payloads.
Context {D : Type} {marshaller : Marshaller D}.
Implicit Types (h : gmap loc (Payload D)) (p : Payload D) (l : loc).
#[local] Arguments submit : simpl never.
#[local] Arguments flushBufferToSocket : simpl never.

(** An outcome is reached by the events up to some point. *)
Lemma sendListener_prefix_split (events : list Event) h (c : APNSConnection)
    (o : Outcome) :
  sendListener h c events = Some o →
  ∃ before rest,
    events = before ++ rest
    ∧ sendListener h c before
      = Some (Listening (outcome_heap o) (outcome_conn o)).
Proof.
  revert h c. induction events as [|ev events IH]; intros h c Hrun.
  - injection Hrun as <-. by exists [], [].
  - destruct ev as [[l|] | | appleError].
    + rewrite sendListener_submit in Hrun.
      destruct (submit h c l) as [[h1 c1]|] eqn:Hsubmit; cbn in Hrun; [|done].
      destruct (IH _ _ Hrun) as (before & rest & -> & Hbefore).
      exists (Submit (Some l) :: before), rest. split; [done|].
      by rewrite sendListener_submit, Hsubmit.
    + injection Hrun as <-. by exists [], (Submit None :: events).
    + rewrite sendListener_timeout in Hrun.
      destruct (flushBufferToSocket c) as [c1|] eqn:Hflush; cbn in Hrun; [|done].
      destruct (IH _ _ Hrun) as (before & rest & -> & Hbefore).
      exists (Timeout :: before), rest. split; [done|].
      by rewrite sendListener_timeout, Hflush.
    + injection Hrun as <-. by exists [], (ErrClose appleError :: events).
Qed.

(** What one submission does to the heap. *)
Lemma submit_heap h (c : APNSConnection) l h1 (c1 : APNSConnection) :
  bufferOK c →
  submit h c l = Some (h1, c1) →
  ∃ p, h !! l = Some p
       ∧ (h1 = h ∨ h1 = <[l := set_Priority (wirePriority (Priority p)) p]> h).
Proof.
  intros Hok Hsubmit.
  destruct (submit_allocated h c l) as [p Hp]; [by rewrite Hsubmit|].
  exists p. split; [done|].
  destruct (submit_bufferPayload h c l) as (c2 & Heq & Hbuf2 & _).
  rewrite Heq in Hsubmit.
  assert (bufferOK c2) as Hok2 by (unfold bufferOK; by rewrite Hbuf2).
  destruct (itemBuffer p (nextPayloadId c).1) as [[p' item]|] eqn:Hitem.
  - destruct (bufferPayload_encoded h c2
                {| ip_Payload := l; ip_Id := (nextPayloadId c).1 |}
                p p' item Hok2 Hp Hitem) as (c3 & _ & _ & Hb & _).
    rewrite Hsubmit in Hb. injection Hb as -> _.
    apply itemBuffer_payload in Hitem as [-> _]. by right.
  - destruct (bufferPayload_teardown h c2
                {| ip_Payload := l; ip_Id := (nextPayloadId c).1 |}
                p Hok2 Hp Hitem) as (c3 & Hb & _).
    rewrite Hsubmit in Hb. injection Hb as -> _. by left.
Qed.

(** X14: along a run no payload appears on the heap or leaves it, and the
    only field ever written is [Priority], which becomes 5 when it was
    neither 5 nor 10; a payload that was never submitted is exactly as it
    was. *)
Theorem heap_along_run h (c : APNSConnection) (events : list Event)
    (o : Outcome) l :
  bufferOK c →
  sendListener h c events = Some o →
  (h !! l = None → outcome_heap o !! l = None)
  ∧ ∀ p, h !! l = Some p →
      ∃ p', outcome_heap o !! l = Some p'
            ∧ Token p' = Token p
            ∧ ExpirationTime p' = ExpirationTime p
            ∧ PayloadData p' = PayloadData p
            ∧ (Priority p' = Priority p
               ∨ Priority p' = 5 ∧ Priority p ≠ 5 ∧ Priority p ≠ 10)
            ∧ (l ∉ submitted events → p' = p).
Proof.
  intros Hok Hrun.
  apply sendListener_prefix_split in Hrun as (before & rest & -> & Hrun).
  generalize dependent (outcome_conn o). generalize dependent (outcome_heap o).
  intros h' c' Hrun.
  assert ((h !! l = None → h' !! l = None)
          ∧ ∀ p, h !! l = Some p →
              ∃ p', h' !! l = Some p'
                    ∧ Token p' = Token p
                    ∧ ExpirationTime p' = ExpirationTime p
                    ∧ PayloadData p' = PayloadData p
                    ∧ (Priority p' = Priority p
                       ∨ Priority p' = 5 ∧ Priority p ≠ 5 ∧ Priority p ≠ 10)
                    ∧ (l ∉ submitted before → p' = p)) as [Hnone Hsome].
  { refine (proj2 (sendListener_invariant
              (λ ls h1 c1,
                 bufferOK c1
                 ∧ (h !! l = None → h1 !! l = None)
                 ∧ ∀ p, h !! l = Some p →
                     ∃ p', h1 !! l = Some p'
                           ∧ Token p' = Token p
                           ∧ ExpirationTime p' = ExpirationTime p
                           ∧ PayloadData p' = PayloadData p
                           ∧ (Priority p' = Priority p
                              ∨ Priority p' = 5 ∧ Priority p ≠ 5
                                ∧ Priority p ≠ 10)
                           ∧ (l ∉ ls → p' = p))
              _ _ before [] h c h' c' Hrun _)).
    - intros ls h0 c0 l0 h1 c1 (Hok0 & Hnone & Hsome) Hsubmit.
      split.
      { destruct (submit_allocated h0 c0 l0) as [p0 Hp0]; [by rewrite Hsubmit|].
        destruct (submit_effect h0 c0 l0 p0 Hok0 Hp0) as (? & ? & ? & Hs & ? & _).
        congruence. }
      destruct (submit_heap h0 c0 l0 h1 c1 Hok0 Hsubmit)
        as (p0 & Hp0 & [-> | ->]).
      { split; [done|]. intros p Hp.
        destruct (Hsome p Hp) as (p' & ? & ? & ? & ? & ? & Hsame).
        exists p'. do 5 (split; [done|]).
        intros Hnotin. apply Hsame. intros Hin. apply Hnotin.
        apply elem_of_app. by left. }
      destruct (decide (l = l0)) as [-> | Hne].
      + split; [intros Hn; specialize (Hnone Hn); congruence|].
        intros p Hp.
        destruct (Hsome p Hp) as (p' & Hp' & Htoken & Hexp & Hdata & Hprio & _).
        rewrite Hp0 in Hp'. injection Hp' as ->.
        eexists. split; [apply lookup_insert_eq|].
        cbn [set_Priority Token ExpirationTime PayloadData Priority].
        do 3 (split; [done|]). split.
        * unfold wirePriority.
          destruct (Z.eqb_spec (Priority p') 10), (Z.eqb_spec (Priority p') 5);
            cbn; destruct Hprio as [Heq | (? & ? & ?)]; lia.
        * intros Hnotin. destruct Hnotin. apply elem_of_app. right.
          by apply list_elem_of_singleton.
      + rewrite lookup_insert_ne by done. split; [done|].
        intros p Hp.
        destruct (Hsome p Hp) as (p' & ? & ? & ? & ? & ? & Hsame).
        exists p'. do 5 (split; [done|]).
        intros Hnotin. apply Hsame. intros Hin. apply Hnotin.
        apply elem_of_app. by left.
    - intros ls h0 c0 c1 (Hok0 & Hnone & Hsome) Hflush.
      split; [by eapply bufferOK_flush | by split].
    - split; [done|]. split; [done|]. intros p Hp. exists p.
      do 4 (split; [done|]). split; [by left | done]. }
  split; [done|]. intros p Hp.
  destruct (Hsome p Hp) as (p' & ? & ? & ? & ? & ? & Hsame).
  exists p'. do 5 (split; [done|]).
  intros Hnotin. apply Hsame. intros Hin. apply Hnotin.
  unfold submitted. rewrite omap_app. apply elem_of_app. by left.
Qed.

(** X15: whatever the length of the decoded token, the item carries
    len(token) + len(payloadBytes) + 9 bytes after its two length bytes while
    these say 32 + len(payloadBytes) + 9: the length bytes are off by 32
    minus the token length, and right exactly for a token of 32 bytes. *)
Theorem itemLength_offset h (c : APNSConnection) (idPayloadObj : idPayload)
    p (token payloadBytes : list Z) :
  bufferOK c →
  h !! ip_Payload idPayloadObj = Some p →
  DecodeString (Token p) = Some token →
  marshalAlertBodyPayload p 256 = Some payloadBytes →
  32 + len payloadBytes + 4 + 4 + 1 < 2 ^ 16 →
  ∃ h' c' frame localId hi lo body,
    bufferPayload h c idPayloadObj = Some (h', c')
    ∧ inFlightByteBuffer c' = frame ++ [localId] ++ [hi; lo] ++ body
    ∧ 0 <= hi < 256 ∧ 0 <= lo < 256
    ∧ len body = len token + len payloadBytes + 4 + 4 + 1
    ∧ hi * 256 + lo - len body = 32 - len token
    ∧ (hi * 256 + lo = len body ↔ length token = 32%nat).
Proof.
  intros Hok Hp Htoken Hbody Hsmall.
  pose proof (itemBuffer_Some p (ip_Id idPayloadObj) token payloadBytes
                Htoken Hbody) as Hitem.
  destruct (bufferPayload_encoded h c idPayloadObj p _ _ Hok Hp Hitem)
    as (c' & frame & localId & Hbuffer & Hbytes & _).
  pose proof (len_nonneg payloadBytes).
  destruct (putUint16_bytes (32 + len payloadBytes + 4 + 4 + 1) ltac:(lia))
    as (hi & lo & Hfield & Hhi & Hlo & Hvalue).
  rewrite Hfield in Hbytes.
  eexists _, c', frame, localId, hi, lo, _.
  split; [exact Hbuffer|]. split; [exact Hbytes|].
  split; [done|]. split; [done|].
  assert (len (token ++ payloadBytes ++ putUint32 (ip_Id idPayloadObj)
                 ++ putUint32 (ExpirationTime p) ++ [wirePriority (Priority p)])
          = len token + len payloadBytes + 4 + 4 + 1) as Hlen.
  { unfold len. rewrite !length_app, !length_putUint32. cbn [length]. lia. }
  rewrite Hlen, Hvalue. split; [done|]. split; [lia|].
  unfold len. lia.
Qed.

End Payloads.

(** * The further properties on examples *)

Lemma replay_retains_newest_witness :
  Forall (λ ev, traffic ev = true) exEvents
  ∧ Forall (λ l, is_Some (exHeap !! l)) (submitted exEvents)
  ∧ ∃ h' c',
      sendListener exHeap (socketAPNSConnectionBufSize exSocket 2) exEvents
      = Some (Listening h' c')
      ∧ inFlightPayloadBuffer c'
        = [{| ip_Payload := 3%positive; ip_Id := 3 |};
           {| ip_Payload := 2%positive; ip_Id := 2 |}]
      ∧ payloadIdCounter c' = 3.
Proof.
  assert (Forall (λ ev, traffic ev = true) exEvents) as Htraffic
    by (repeat constructor).
  assert (Forall (λ l, is_Some (exHeap !! l)) (submitted exEvents)) as Halloc
    by (repeat constructor; vm_compute; eauto).
  split; [done|]. split; [done|].
  destruct (replay_retains_newest exEvents exHeap exSocket 2 Htraffic Halloc)
    as (h' & c' & Hrun & Hreplay & _ & Hcounter).
  exists h', c'. split; [exact Hrun|].
  rewrite Hreplay, Hcounter. split; vm_compute; reflexivity.
Defined.


Lemma unassigned_id_reports_all_witness :
  Forall (λ ev, traffic ev = true) exEvents
  ∧ Forall (λ l, is_Some (exHeap !! l)) (submitted exEvents)
  ∧ len (submitted exEvents) <= 10000
  ∧ len (submitted exEvents) < 7 < 2 ^ 32
  ∧ ∃ h' c',
      sendListener exHeap (socketAPNSConnectionBufSize exSocket 10000)
        (exEvents ++ [ErrClose {| MessageId := 7; ErrorCode := 8;
                                  ErrorString := "INVALID_TOKEN" |}])
      = Some (Closed h' c'
                {| UnsentPayloads := [1%positive; 2%positive; 3%positive];
                   Error := {| MessageId := 7; ErrorCode := 8;
                               ErrorString := "INVALID_TOKEN" |};
                   ErrorPayload := None;
                   UnsentPayloadBufferOverflow := true |}).
Proof.
  assert (Forall (λ ev, traffic ev = true) exEvents) as Htraffic
    by (repeat constructor).
  assert (Forall (λ l, is_Some (exHeap !! l)) (submitted exEvents)) as Halloc
    by (repeat constructor; vm_compute; eauto).
  assert (len (submitted exEvents) <= 10000) as Hfits by (vm_compute; discriminate).
  assert (len (submitted exEvents) < 7 < 2 ^ 32) as Hid
    by (split; vm_compute; reflexivity).
  split; [done|]. split; [done|]. split; [done|]. split; [done|].
  exact (unassigned_id_reports_all exEvents exHeap exSocket 10000
           {| MessageId := 7; ErrorCode := 8; ErrorString := "INVALID_TOKEN" |}
           Htraffic Halloc Hfits Hid).
Defined.

Lemma closeReport_partition_witness :
  sendListener exHeap (NewAPNSConnection exSocket)
    (exEvents ++ [ErrClose exInvalidToken])
  = Some (Closed (outcome_heap exClosed) (outcome_conn exClosed) exReport)
  ∧ ∃ older,
      reverse (ip_Payload <$> inFlightPayloadBuffer (outcome_conn exClosed))
      = older ++ option_list (ErrorPayload exReport) ++ UnsentPayloads exReport
      ∧ (ErrorPayload exReport = None → older = []).
Proof.
  assert (sendListener exHeap (NewAPNSConnection exSocket)
            (exEvents ++ [ErrClose exInvalidToken])
          = Some (Closed (outcome_heap exClosed) (outcome_conn exClosed)
                    exReport)) as Hrun by (vm_compute; reflexivity).
  split; [done|].
  exact (closeReport_partition _ _ _ _ _ _ Hrun).
Defined.

Lemma nil_payload_returns_witness :
  Forall (λ ev, traffic ev = true) exEvents
  ∧ bufferOK (NewAPNSConnection exSocket)
  ∧ Forall (λ l, is_Some (exHeap !! l)) (submitted exEvents)
  ∧ ∃ h' c',
      sendListener exHeap (NewAPNSConnection exSocket) exEvents
      = Some (Listening h' c')
      ∧ sendListener exHeap (NewAPNSConnection exSocket)
          (exEvents ++ Submit None :: [ErrClose exInvalidToken])
        = Some (Returned h' c')
      ∧ closeReport
          (sendListener exHeap (NewAPNSConnection exSocket)
             (exEvents ++ Submit None :: [ErrClose exInvalidToken]))
        = None.
Proof.
  assert (Forall (λ ev, traffic ev = true) exEvents) as Htraffic
    by (repeat constructor).
  assert (Forall (λ l, is_Some (exHeap !! l)) (submitted exEvents)) as Halloc
    by (repeat constructor; vm_compute; eauto).
  assert (bufferOK (NewAPNSConnection exSocket)) as Hok by (by left).
  split; [done|]. split; [done|]. split; [done|].
  exact (nil_payload_returns exEvents [ErrClose exInvalidToken] exHeap
           (NewAPNSConnection exSocket) Htraffic Hok Halloc).
Defined.

Lemma item_id_read_back_witness :
  bufferOK (NewAPNSConnection exSocket)
  ∧ exHeap !! 1%positive = Some (mkPayload exToken 7 10 [1; 2; 3])
  ∧ is_Some (DecodeString exToken)
  ∧ marshalAlertBodyPayload (mkPayload exToken 7 10 [1; 2; 3]) 256
    = Some [1; 2; 3]
  ∧ 0 <= 1 < 2 ^ 32
  ∧ 0 <= 8 < 256
  ∧ ∃ h' c' before idBytes after appleError,
      bufferPayload exHeap (NewAPNSConnection exSocket)
        {| ip_Payload := 1%positive; ip_Id := 1 |} = Some (h', c')
      ∧ inFlightByteBuffer c' = before ++ idBytes ++ after
      ∧ length idBytes = 4%nat ∧ length after = 5%nat
      ∧ closeListener (mkReadResult ([8; 8] ++ idBytes) None) = Some appleError
      ∧ MessageId appleError = 1
      ∧ ErrorCode appleError = 8.
Proof.
  split; [by left|]. split; [reflexivity|]. split; [vm_compute; eauto|].
  split; [reflexivity|]. split; [lia|]. split; [lia|].
  apply (item_id_read_back exHeap (NewAPNSConnection exSocket)
           {| ip_Payload := 1%positive; ip_Id := 1 |}
           (mkPayload exToken 7 10 [1; 2; 3])
           [0; 1; 2; 3; 4; 5; 6; 7; 8; 9; 10; 11; 12; 13; 14; 15; 16; 17; 18;
            19; 20; 21; 22; 23; 24; 25; 26; 27; 28; 29; 30; 31] [1; 2; 3] 8 8);
    [by left | reflexivity | reflexivity | reflexivity | cbn; lia | lia].
Defined.

Lemma echoed_id_names_payload_witness :
  Forall (λ ev, traffic ev = true) exEvents
  ∧ Forall (λ l, is_Some (exHeap !! l)) (submitted exEvents)
  ∧ len (submitted exEvents) <= 10000
  ∧ len (submitted exEvents) < 2 ^ 32
  ∧ submitted exEvents !! 1%nat = Some 2%positive
  ∧ 0 <= 8 < 256
  ∧ ∃ appleError h' c',
      closeListener
        (mkReadResult
           ([8; 8] ++ putUint32 (ip_Id (replayEntry 1 2%positive))) None)
      = Some appleError
      ∧ ErrorCode appleError = 8
      ∧ sendListener exHeap (socketAPNSConnectionBufSize exSocket 10000)
          (exEvents ++ [ErrClose appleError])
        = Some (Closed h' c'
                  {| UnsentPayloads := [3%positive];
                     Error := appleError;
                     ErrorPayload := Some 2%positive;
                     UnsentPayloadBufferOverflow := false |}).
Proof.
  assert (Forall (λ ev, traffic ev = true) exEvents) as Htraffic
    by (repeat constructor).
  assert (Forall (λ l, is_Some (exHeap !! l)) (submitted exEvents)) as Halloc
    by (repeat constructor; vm_compute; eauto).
  assert (len (submitted exEvents) <= 10000) as Hfits by (vm_compute; discriminate).
  assert (len (submitted exEvents) < 2 ^ 32) as Hsmall by (vm_compute; reflexivity).
  split; [done|]. split; [done|]. split; [done|]. split; [done|].
  split; [reflexivity|]. split; [lia|].
  apply (echoed_id_names_payload exEvents exHeap exSocket 10000 8 8 1
           2%positive Htraffic Halloc Hfits Hsmall); [reflexivity | lia].
Defined.

Lemma ErrorString_empty_iff_unlisted_witness :
  length [8; 8; 0; 0; 0; 2] = 6%nat
  ∧ [8; 8; 0; 0; 0; 2] !! 1%nat = Some 8
  ∧ 0 <= 8 < 256
  ∧ ∃ appleError,
      closeListener (mkReadResult [8; 8; 0; 0; 0; 2] None) = Some appleError
      ∧ ErrorCode appleError = 8
      ∧ (ErrorString appleError = EmptyString
         ↔ 8 ∉ [0; 1; 2; 3; 4; 5; 6; 7; 8; 10; 255])
      ∧ (8 ∈ [0; 1; 2; 3; 4; 5; 6; 7; 8; 10; 255] →
         APPLE_PUSH_RESPONSES !! 8 = Some (ErrorString appleError)).
Proof.
  split; [reflexivity|]. split; [reflexivity|]. split; [lia|].
  apply (ErrorString_empty_iff_unlisted [8; 8; 0; 0; 0; 2] 8);
    [reflexivity | reflexivity | lia].
Defined.

Lemma written_frames_well_formed_witness :
  Forall frameOK (conn_written exSocket)
  ∧ sendListener exHeap (socketAPNSConnectionBufSize exSocket 10000) exEvents
    = Some exOutcome
  ∧ Forall frameOK (conn_written (socket (outcome_conn exOutcome)))
  ∧ ∀ frame, frame ∈ conn_written (socket (outcome_conn exOutcome)) →
      head frame = Some 2
      ∧ Uint32 (drop 1 frame) = Some (uint32 (len frame - 5)).
Proof.
  assert (Forall frameOK (conn_written exSocket)) as Hwritten by constructor.
  assert (sendListener exHeap (socketAPNSConnectionBufSize exSocket 10000)
            exEvents = Some exOutcome) as Hrun by (vm_compute; reflexivity).
  split; [done|]. split; [done|].
  exact (written_frames_well_formed exHeap exSocket 10000 exEvents exOutcome
           Hwritten Hrun).
Defined.

Lemma timer_flush_keeps_buffer_witness :
  5 < len (inFlightByteBuffer (outcome_conn exOutcome))
  ∧ outcome_heap exOutcome !! 1%positive
    = Some (mkPayload exToken 7 10 [1; 2; 3])
  ∧ itemBuffer (mkPayload exToken 7 10 [1; 2; 3])
      (nextPayloadId (outcome_conn exOutcome)).1
    = Some exItem
  ∧ len (inFlightByteBuffer (outcome_conn exOutcome)) + len exItem.2
    <= TCP_FRAME_MAX
  ∧ ∃ h' c' frame1 frame2,
      sendListener (outcome_heap exOutcome) (outcome_conn exOutcome)
        [Timeout; Submit (Some 1%positive); Timeout]
      = Some (Listening h' c')
      ∧ conn_written (socket c')
        = conn_written (socket (outcome_conn exOutcome)) ++ [frame1; frame2]
      ∧ drop 5 frame1 = drop 5 (inFlightByteBuffer (outcome_conn exOutcome))
      ∧ drop 5 frame2
        = drop 5 (inFlightByteBuffer (outcome_conn exOutcome))
            ++ <[0%nat := uint8 (inFlightId (outcome_conn exOutcome) + 1)]>
                 exItem.2
      ∧ inFlightByteBuffer c' = frame2.
Proof.
  assert (5 < len (inFlightByteBuffer (outcome_conn exOutcome))) as Hlen
    by (vm_compute; reflexivity).
  assert (outcome_heap exOutcome !! 1%positive
          = Some (mkPayload exToken 7 10 [1; 2; 3])) as Hp
    by (vm_compute; reflexivity).
  assert (itemBuffer (mkPayload exToken 7 10 [1; 2; 3])
            (nextPayloadId (outcome_conn exOutcome)).1
          = Some (exItem.1, exItem.2)) as Hitem by (vm_compute; reflexivity).
  assert (len (inFlightByteBuffer (outcome_conn exOutcome)) + len exItem.2
          <= TCP_FRAME_MAX) as Hfits by (vm_compute; discriminate).
  split; [done|]. split; [done|]. split; [vm_compute; reflexivity|].
  split; [done|].
  exact (timer_flush_keeps_buffer (outcome_heap exOutcome)
           (outcome_conn exOutcome) 1%positive _ _ _ Hlen Hp Hitem Hfits).
Defined.

Lemma Disconnect_spec_witness :
  bufferOK (outcome_conn exOutcome)
  ∧ ∃ c',
      Disconnect (outcome_conn exOutcome) = Some c'
      ∧ conn_closed (socket c') = true
      ∧ length (conn_written (socket c'))
        = S (length (conn_written (socket (outcome_conn exOutcome)))).
Proof.
  assert (bufferOK (outcome_conn exOutcome)) as Hok
    by (right; vm_compute; discriminate).
  split; [done|].
  destruct (Disconnect_spec (outcome_conn exOutcome) Hok)
    as (c' & Hd & Hclosed & _ & _ & _ & _ & _ & Hwritten).
  exists c'. split; [exact Hd|]. split; [exact Hclosed|].
  rewrite Hwritten by (vm_compute; reflexivity).
  rewrite length_app. cbn [length]. lia.
Defined.

Lemma submit_unencodable_witness :
  bufferOK (outcome_conn exOutcome)
  ∧ badHeap !! 4%positive = Some (mkPayload "0g" 0 10 [1])
  ∧ DecodeString "0g" = None
  ∧ ∃ c',
      submit badHeap (outcome_conn exOutcome) 4%positive = Some (badHeap, c')
      ∧ conn_closed (socket c') = true
      ∧ payloadIdCounter c' = 4
      ∧ len (inFlightByteBuffer c')
        = len (inFlightByteBuffer (outcome_conn exOutcome)).
Proof.
  assert (bufferOK (outcome_conn exOutcome)) as Hok
    by (right; vm_compute; discriminate).
  assert (badHeap !! 4%positive = Some (mkPayload "0g" 0 10 [1])) as Hp
    by reflexivity.
  assert (DecodeString "0g" = None) as Hdecode by reflexivity.
  split; [done|]. split; [done|]. split; [done|].
  destruct (submit_unencodable badHeap (outcome_conn exOutcome) 4%positive
              (mkPayload "0g" 0 10 [1]) Hok Hp (or_introl Hdecode))
    as (c' & Hsubmit & Hclosed & Hcounter & _ & Hlen & _).
  exists c'. split; [exact Hsubmit|]. split; [exact Hclosed|].
  split; [|exact Hlen]. rewrite Hcounter. vm_compute. reflexivity.
Defined.

Lemma heap_along_run_witness :
  bufferOK (NewAPNSConnection exSocket)
  ∧ sendListener exHeap (NewAPNSConnection exSocket) exEvents = Some exOutcome
  ∧ exHeap !! 2%positive = Some (mkPayload exToken 0 7 [4])
  ∧ ∃ p', outcome_heap exOutcome !! 2%positive = Some p'
          ∧ Token p' = exToken
          ∧ ExpirationTime p' = 0
          ∧ PayloadData p' = [4]
          ∧ (Priority p' = 7 ∨ Priority p' = 5 ∧ 7 ≠ 5 ∧ 7 ≠ 10).
Proof.
  assert (bufferOK (NewAPNSConnection exSocket)) as Hok by (by left).
  assert (sendListener exHeap (NewAPNSConnection exSocket) exEvents
          = Some exOutcome) as Hrun by (vm_compute; reflexivity).
  split; [done|]. split; [done|]. split; [reflexivity|].
  destruct (proj2 (heap_along_run exHeap (NewAPNSConnection exSocket) exEvents
                     exOutcome 2%positive Hok Hrun)
              (mkPayload exToken 0 7 [4]) eq_refl)
    as (p' & Hp' & Htoken & Hexp & Hdata & Hprio & _).
  exists p'. split; [exact Hp'|]. split; [exact Htoken|].
  split; [exact Hexp|]. split; [exact Hdata | exact Hprio].
Defined.

Lemma itemLength_offset_witness :
  bufferOK (NewAPNSConnection exSocket)
  ∧ exHeap !! 3%positive = Some (mkPayload "ab" 0 5 [])
  ∧ DecodeString "ab" = Some [171]
  ∧ marshalAlertBodyPayload (mkPayload "ab" 0 5 ([] : list Z)) 256 = Some []
  ∧ 32 + len ([] : list Z) + 4 + 4 + 1 < 2 ^ 16
  ∧ ∃ h' c' frame localId hi lo body,
      bufferPayload exHeap (NewAPNSConnection exSocket)
        {| ip_Payload := 3%positive; ip_Id := 1 |} = Some (h', c')
      ∧ inFlightByteBuffer c' = frame ++ [localId] ++ [hi; lo] ++ body
      ∧ 0 <= hi < 256 ∧ 0 <= lo < 256
      ∧ len body = len [171] + len ([] : list Z) + 4 + 4 + 1
      ∧ hi * 256 + lo - len body = 32 - len [171]
      ∧ (hi * 256 + lo = len body ↔ length [171] = 32%nat).
Proof.
  split; [by left|]. split; [reflexivity|]. split; [reflexivity|].
  split; [reflexivity|]. split; [vm_compute; reflexivity|].
  apply (itemLength_offset exHeap (NewAPNSConnection exSocket)
           {| ip_Payload := 3%positive; ip_Id := 1 |}
           (mkPayload "ab" 0 5 []) [171] []);
    [by left | reflexivity | reflexivity | reflexivity | vm_compute; reflexivity].
Defined.
